(** * escalator: the scaling decision engine of pkg/controller/controller.go

    A shallow embedding of [calcPercentUsage], [dryMode], [scaleNodeGroup]
    and [RunOnce], with the properties of the decision engine proved over
    it.  Go's [int] and [int64] are 64-bit two's complement integers held
    in [Z]; [float64] is IEEE 754 binary64, computed with the reference
    operations of [SpecFloat] at precision 53 and exponent bound 1024. *)

From Stdlib Require Import ZArith Lia Bool.
From Stdlib Require Import Floats.SpecFloat.
From stdpp Require Import base list gmap strings.

Local Open Scope Z_scope.

(** ** Go numeric types *)

Module GoInt.

Definition min_int : Z := - 2 ^ 63.
Definition max_int : Z := 2 ^ 63 - 1.

Definition in_range (z : Z) : Prop := min_int <= z <= max_int.

(** Two's complement wrap-around of a 64-bit signed result. *)
Definition wrap (z : Z) : Z := (z + 2 ^ 63) mod 2 ^ 64 - 2 ^ 63.

(** Unary minus on [int]: [-x]. *)
Definition neg (x : Z) : Z := wrap (- x).

(** [len(l)] *)
Definition len {A} (l : list A) : Z := Z.of_nat (length l).

End GoInt.

Module GoFloat.

Definition float64 : Type := spec_float.

Definition prec : Z := 53.
Definition emax : Z := 1024.

(** [float64(n)] for an integer [n]: the nearest binary64, ties to even. *)
Definition of_int (n : Z) : float64 := binary_normalize prec emax n 0 false.

Definition mul : float64 -> float64 -> float64 := SFmul prec emax.
Definition div : float64 -> float64 -> float64 := SFdiv prec emax.
Definition ltb : float64 -> float64 -> bool := SFltb.
Definition eqb : float64 -> float64 -> bool := SFeqb.

Definition is_nan (x : float64) : bool :=
  match x with S754_nan => true | _ => false end.

Definition is_pos_inf (x : float64) : bool :=
  match x with S754_infinity false => true | _ => false end.

Definition is_zero (x : float64) : bool :=
  match x with S754_zero _ => true | _ => false end.

Definition signbit (x : float64) : bool :=
  match x with
  | S754_zero s | S754_infinity s | S754_finite s _ _ => s
  | S754_nan => false
  end.

(** [math.Max] of the Go standard library, special cases first:
    [Max(x, +Inf) = Max(+Inf, x) = +Inf], [Max(x, NaN) = Max(NaN, x) = NaN],
    [Max(+0, ±0) = Max(±0, +0) = +0], then [if x > y { return x }; return y]. *)
Definition Max (x y : float64) : float64 :=
  if is_pos_inf x || is_pos_inf y then S754_infinity false
  else if is_nan x || is_nan y then S754_nan
  else if is_zero x && eqb x y then (if signbit x then y else x)
  else if ltb y x then x else y.

(** The integer part of the magnitude of a finite float [m * 2^e]. *)
Definition magnitude (m : positive) (e : Z) : Z :=
  if 0 <=? e then Z.shiftl (Z.pos m) e else Z.shiftr (Z.pos m) (- e).

(** [int(f)]: the fraction is discarded (truncation towards zero).  The Go
    specification leaves the result open when the value does not fit;
    the amd64 conversion instruction then yields the minimum integer,
    also for NaN and the infinities. *)
Definition to_int (f : float64) : Z :=
  match f with
  | S754_zero _ => 0
  | S754_finite s m e =>
      let v := if s then - magnitude m e else magnitude m e in
      if (GoInt.min_int <=? v) && (v <=? GoInt.max_int) then v else GoInt.min_int
  | S754_infinity _ | S754_nan => GoInt.min_int
  end.

End GoFloat.

Import GoFloat.

#[global] Arguments of_int : simpl never.
#[global] Arguments mul : simpl never.
#[global] Arguments div : simpl never.
#[global] Arguments Max : simpl never.
#[global] Arguments to_int : simpl never.
#[global] Arguments GoInt.neg : simpl never.
#[global] Arguments GoInt.len : simpl never.

(** ** resource.Quantity

    The Kubernetes quantity type is opaque to this package, which observes
    it through two methods only. *)

Record Quantity := {
  MilliValue : Z;          (* q.MilliValue(), an int64 *)
  AsInt64 : Z * bool       (* q.AsInt64() *)
}.

(** Go's [error]; [nil] is [None]. *)
Definition error : Type := string.

(** calcPercentUsage helper works out the percentage of cpu and mem for
    request/capacity *)
Definition calcPercentUsage (cpuR memR cpuA memA : Quantity)
  : float64 * float64 * option error :=
  if (MilliValue cpuA =? 0) || (MilliValue memA =? 0) then
    (of_int 0, of_int 0, Some "Cannot divide by zero in percent calculation"%string)
  else
    let cpuPercent := mul (div (of_int (MilliValue cpuR)) (of_int (MilliValue cpuA))) (of_int 100) in
    let memPercent := mul (div (of_int (MilliValue memR)) (of_int (MilliValue memA))) (of_int 100) in
    (cpuPercent, memPercent, None).

(** ** Configuration

    Modelled from the spec: the NodeGroupOptions struct is declared outside
    the controller source; these are the fields the controller reads (name,
    integer bounds, integer percentage thresholds, integer step rates and
    the dry-run flag), all of Go type [int] except the name and the flag. *)
Record NodeGroupOptions := {
  Name : string;
  MinNodes : Z;
  MaxNodes : Z;
  DryMode : bool;
  TaintUpperCapacityThreshholdPercent : Z;
  TaintLowerCapacityThreshholdPercent : Z;
  ScaleUpThreshholdPercent : Z;
  SlowNodeRemovalRate : Z;
  FastNodeRemovalRate : Z;
  FastNodeRevivalRate : Z
}.

(** Opts provide the Controller with config for runtime.  The Kubernetes
    client handle is opaque and left out. *)
Record Opts := {
  NodeGroups : list NodeGroupOptions;
  ScanInterval : Z;
  Opts_DryMode : bool
}.

(** ** Observable events

    What a cycle does to the outside world, in program order: log lines,
    metric updates and calls to collaborators. *)

Inductive Level := DebugLevel | InfoLevel | WarnLevel | ErrorLevel.

(** One argument of a log call. *)
Inductive Arg :=
| AStr (s : string)
| AInt (n : Z)
| AFloat (f : float64)
| AErr (err : option error)
| ADuration (startTime endTime : Z).

Inductive Metric :=
| NodeGroupNodes | NodeGroupNodesUntainted | NodeGroupNodesTainted
| NodeGroupPods
| NodeGroupCPURequest | NodeGroupMemRequest
| NodeGroupCPUCapacity | NodeGroupMemCapacity
| NodeGroupsCPUPercent | NodeGroupsMemPercent.

(** ** The monad of a cycle

    A computation threads the state [S] the function can reach through its
    pointer argument, appends to the trace of events [E], and either falls
    through with a value or has executed Go's [return]. *)

Definition M (S E A : Type) : Type := S -> option A * S * list E.

Definition ret {S E A} (a : A) : M S E A := fun s => (Some a, s, []).

Definition bind {S E A B} (m : M S E A) (k : A -> M S E B) : M S E B :=
  fun s =>
    match m s with
    | (Some a, s', t) => let '(r, s'', t') := k a s' in (r, s'', t ++ t')
    | (None, s', t) => (None, s', t)
    end.

(** Go's [return] in a function without results. *)
Definition return_ {S E A} : M S E A := fun s => (None, s, []).

Definition emit {S E} (e : E) : M S E unit := fun s => (Some tt, s, [e]).

Definition get {S E} : M S E S := fun s => (Some s, s, []).

Declare Scope cycle_scope.
Delimit Scope cycle_scope with cycle.
Notation "x <- m ;; k" := (bind m (fun x => k))
  (at level 100, m at next level, right associativity) : cycle_scope.
Notation "m ;; k" := (bind m (fun _ => k))
  (at level 100, right associativity) : cycle_scope.

(** [if b { body }] *)
Definition when {S E} (b : bool) (body : M S E unit) : M S E unit :=
  if b then body else ret tt.

(** [for _, x := range l { body }] with the loop-carried variables in [acc]. *)
Fixpoint range {S E A B} (l : list A) (body : A -> B -> M S E B) (acc : B) : M S E B :=
  match l with
  | [] => ret acc
  | x :: l' => bind (body x acc) (range l' body)
  end.

(** A pure [range] loop whose body may [break]: the body returns the new
    loop-carried value and whether it broke out. *)
Fixpoint range_break {A B} (l : list A) (body : A -> B -> B * bool) (acc : B) : B :=
  match l with
  | [] => acc
  | x :: l' => let '(acc', brk) := body x acc in
               if brk then acc' else range_break l' body acc'
  end.

(** [err != nil] *)
Definition ne_nil (err : option error) : bool :=
  match err with Some _ => true | None => false end.

(** ** The controller and its collaborators

    [v1.Node] and [v1.Pod] are Kubernetes API objects.  The controller reads
    one field of them, the node's name, and otherwise hands them to its
    collaborators: the types are parameters [Node] and [Pod]. *)

(** Modelled from the spec: the NodeGroupLister struct is declared outside
    the controller source; it gives the capability to list the current pods
    and nodes of the group, [Pods.List()] and [Nodes.List()], each returning
    a list and an error. *)
Record NodeGroupLister (Node Pod : Type) := {
  Pods_List : list Pod * option error;
  Nodes_List : list Node * option error
}.
Arguments Pods_List {Node Pod} _.
Arguments Nodes_List {Node Pod} _.

(** NodeGroupState contains everything about a node group in the current
    state of the application *)
Record NodeGroupState (Node Pod : Type) := {
  NodeGroupState_Opts : NodeGroupOptions;
  Lister : NodeGroupLister Node Pod;
  (* used for tracking which nodes are tainted. testing when in dry mode *)
  taintTracker : list string
}.
Arguments NodeGroupState_Opts {Node Pod} _.
Arguments Lister {Node Pod} _.
Arguments taintTracker {Node Pod} _.

(** Controller contains the core logic of the Autoscaler.  The map holds
    pointers to the group states; each state is allocated once, for its
    key, so the object a pointer designates is held under that key. *)
Record Controller (Node Pod : Type) := {
  Controller_Opts : Opts;
  nodeGroups : gmap string (NodeGroupState Node Pod)
}.
Arguments Controller_Opts {Node Pod} _.
Arguments nodeGroups {Node Pod} _.

(** scaleOpts provides options for a scale function
    wraps options that would be passed as args.  [nodeGroup] is the object
    behind the pointer when the options are built. *)
Record scaleOpts (Node Pod : Type) := {
  nodes : list Node;
  taintedNodes : list Node;
  untaintedNodes : list Node;
  pods : list Pod;
  nodeGroup : NodeGroupState Node Pod;
  clusterUsagePercent : Z;
  nodesDelta : Z
}.
Arguments nodes {Node Pod} _.
Arguments taintedNodes {Node Pod} _.
Arguments untaintedNodes {Node Pod} _.
Arguments pods {Node Pod} _.
Arguments nodeGroup {Node Pod} _.
Arguments clusterUsagePercent {Node Pod} _.
Arguments nodesDelta {Node Pod} _.

(** Calls that leave the function. *)
Inductive Call (Node Pod : Type) :=
| Call_Pods_List
| Call_Nodes_List
| Call_GetToBeRemovedTaint (node : Node)
| Call_CalculatePodsRequestsTotal (pods : list Pod)
| Call_CalculateNodesCapacityTotal (nodes : list Node)
| Call_ScaleDown (opts : scaleOpts Node Pod)
| Call_ScaleUp (opts : scaleOpts Node Pod)
| Call_TryRemoveTaintedNodes (opts : scaleOpts Node Pod).
Arguments Call_Pods_List {Node Pod}.
Arguments Call_Nodes_List {Node Pod}.
Arguments Call_GetToBeRemovedTaint {Node Pod} _.
Arguments Call_CalculatePodsRequestsTotal {Node Pod} _.
Arguments Call_CalculateNodesCapacityTotal {Node Pod} _.
Arguments Call_ScaleDown {Node Pod} _.
Arguments Call_ScaleUp {Node Pod} _.
Arguments Call_TryRemoveTaintedNodes {Node Pod} _.

Inductive Event (Node Pod : Type) :=
| EvLog (level : Level) (nodegroup : option string) (args : list Arg)
| EvGauge (metric : Metric) (nodegroup : string) (value : float64)
| EvCall (call : Call Node Pod).
Arguments EvLog {Node Pod} _ _ _.
Arguments EvGauge {Node Pod} _ _ _.
Arguments EvCall {Node Pod} _.

(** What the controller source takes from outside itself.

    - [Node_Name]: the field [node.Name].
    - The functions of package k8s.  The first result of
      [GetToBeRemovedTaint] is discarded by the caller; the second says
      whether the node carries the to-be-removed taint.  The two totals are
      returned memory first, CPU second.
    - The mutation operations, methods of the controller defined outside
      this source file.  Each returns a count and an error, and may write
      the group state it reaches through [opts.nodeGroup]: the last
      component is that object after the call. *)
Class Collaborators (Node Pod : Type) := {
  Node_Name : Node -> string;
  GetToBeRemovedTaint : Node -> bool;
  CalculatePodsRequestsTotal : list Pod -> Quantity * Quantity * option error;
  CalculateNodesCapacityTotal : list Node -> Quantity * Quantity * option error;
  ScaleDown : Controller Node Pod -> scaleOpts Node Pod ->
              Z * option error * NodeGroupState Node Pod;
  ScaleUp : Controller Node Pod -> scaleOpts Node Pod ->
            Z * option error * NodeGroupState Node Pod;
  TryRemoveTaintedNodes : Controller Node Pod -> scaleOpts Node Pod ->
                          Z * option error * NodeGroupState Node Pod
}.

Section Engine.

Context {Node Pod : Type} `{K : Collaborators Node Pod}.

Abbreviation Cycle := (M (NodeGroupState Node Pod) (Event Node Pod)).

Definition log (level : Level) (nodegroup : option string) (args : list Arg) : Cycle unit :=
  emit (EvLog level nodegroup args).

Definition gauge (metric : Metric) (nodegroup : string) (value : float64) : Cycle unit :=
  emit (EvGauge metric nodegroup value).

(** A call to a collaborator that does not write the group state. *)
Definition call {A} (c : Call Node Pod) (result : A) : Cycle A :=
  bind (emit (EvCall c)) (fun _ => ret result).

(** A call to a mutation operation: the group state after the call is the
    one the operation leaves. *)
Definition mutate (c : Call Node Pod) (result : Z * option error * NodeGroupState Node Pod)
  : Cycle (Z * option error) :=
  fun _ => (Some (fst result), snd result, [EvCall c]).

(** dryMode is a helper that returns the overall drymode result of the
    controller and nodegroup *)
Definition dryMode (c : Controller Node Pod) (nodeGroup : NodeGroupState Node Pod) : bool :=
  Opts_DryMode (Controller_Opts c) || DryMode (NodeGroupState_Opts nodeGroup).

Local Open Scope string_scope.
Local Open Scope list_scope.
Local Open Scope Z_scope.
Local Open Scope cycle_scope.

(** The [switch] of [scaleNodeGroup] that sets [nodesDelta], which starts
    at 0, from [maxPercent] and the options of the group. *)
Definition policySwitch (opts : NodeGroupOptions) (maxPercent : Z) : Z :=
  (* --- Scale Down conditions --- *)
  (* reached very low %. aggressively remove nodes *)
  if maxPercent <? TaintLowerCapacityThreshholdPercent opts then
    GoInt.neg (FastNodeRemovalRate opts)
  (* reached medium low %. slowly remove nodes *)
  else if maxPercent <? TaintUpperCapacityThreshholdPercent opts then
    GoInt.neg (SlowNodeRemovalRate opts)
  (* --- Scale Up conditions --- *)
  (* Need to scale up so capacity can handle requests *)
  else if maxPercent >? ScaleUpThreshholdPercent opts then
    FastNodeRevivalRate opts
  else 0.

(** The body of the loop [for _, node := range allNodes] of
    [scaleNodeGroup], which appends [node] to one of the two slices. *)
Definition filterNode (c : Controller Node Pod) (node : Node)
    (acc : list Node * list Node) : Cycle (list Node * list Node) :=
  let '(untaintedNodes, taintedNodes) := acc in
  nodeGroup <- get ;;
  if dryMode c nodeGroup then
    let contains :=
      range_break (taintTracker nodeGroup) (fun name contains =>
        if String.eqb (Node_Name node) name then (true, true)
        else (contains, false)) false in
    if negb contains then ret (untaintedNodes ++ [node], taintedNodes)
    else ret (untaintedNodes, taintedNodes ++ [node])
  else
    tainted <- call (Call_GetToBeRemovedTaint node) (GetToBeRemovedTaint node) ;;
    if negb tainted then ret (untaintedNodes ++ [node], taintedNodes)
    else ret (untaintedNodes, taintedNodes ++ [node]).

(** scaleNodeGroup performs the core logic of calculating util and choosig
    a scaling action for a node group *)
Definition scaleNodeGroup (c : Controller Node Pod) (nodegroup : string) : Cycle unit :=
  (* list all pods *)
  nodeGroup <- get ;;
  r <- call Call_Pods_List (Pods_List (Lister nodeGroup)) ;;
  let '(pods, err) := r in
  when (ne_nil err) (
    log ErrorLevel None [AStr "Failed to list pods: %v"; AErr err] ;;
    return_) ;;

  (* List all nodes *)
  nodeGroup <- get ;;
  r <- call Call_Nodes_List (Nodes_List (Lister nodeGroup)) ;;
  let '(allNodes, err) := r in
  when (ne_nil err) (
    log ErrorLevel None [AStr "Failed to list nodes: %v"; AErr err] ;;
    return_) ;;

  (* Filter into untainted and tainted nodes *)
  r <- range allNodes (filterNode c) ([], []) ;;
  let '(untaintedNodes, taintedNodes) := r in

  (* Metrics and Logs *)
  log InfoLevel (Some nodegroup) [AStr "nodes remaining total:"; AInt (GoInt.len allNodes)] ;;
  log InfoLevel (Some nodegroup) [AStr "nodes remaining untainted:"; AInt (GoInt.len untaintedNodes)] ;;
  log InfoLevel (Some nodegroup) [AStr "nodes remaining tainted:"; AInt (GoInt.len taintedNodes)] ;;
  gauge NodeGroupNodes nodegroup (of_int (GoInt.len allNodes)) ;;
  gauge NodeGroupNodesUntainted nodegroup (of_int (GoInt.len untaintedNodes)) ;;
  gauge NodeGroupNodesTainted nodegroup (of_int (GoInt.len taintedNodes)) ;;
  gauge NodeGroupPods nodegroup (of_int (GoInt.len pods)) ;;

  (* We want to be really simple right now so we don't do anything if we
     are outside the range of allowed nodes.  We assume it is a config
     error or something bad has gone wrong in the cluster *)
  when (GoInt.len allNodes =? 0) (
    log WarnLevel (Some nodegroup) [AStr "no nodes remaining"] ;;
    return_) ;;
  nodeGroup <- get ;;
  when (GoInt.len allNodes <? MinNodes (NodeGroupState_Opts nodeGroup)) (
    log WarnLevel (Some nodegroup)
      [AStr "Node count of %v less than minimum of %v";
       AInt (GoInt.len allNodes); AInt (MinNodes (NodeGroupState_Opts nodeGroup))] ;;
    return_) ;;
  nodeGroup <- get ;;
  when (GoInt.len allNodes >? MaxNodes (NodeGroupState_Opts nodeGroup)) (
    log WarnLevel (Some nodegroup)
      [AStr "Node count of %v larger than maximum of %v";
       AInt (GoInt.len allNodes); AInt (MaxNodes (NodeGroupState_Opts nodeGroup))] ;;
    return_) ;;

  (* Calc capacity for untainted nodes *)
  r <- call (Call_CalculatePodsRequestsTotal pods) (CalculatePodsRequestsTotal pods) ;;
  let '(memRequest, cpuRequest, err) := r in
  when (ne_nil err) (
    log ErrorLevel None [AStr "Failed to calculate requests: %v"; AErr err] ;;
    return_) ;;
  r <- call (Call_CalculateNodesCapacityTotal untaintedNodes)
            (CalculateNodesCapacityTotal untaintedNodes) ;;
  let '(memCapacity, cpuCapacity, err) := r in
  when (ne_nil err) (
    log ErrorLevel None [AStr "Failed to calculate capacity: %v"; AErr err] ;;
    return_) ;;

  (* Metrics *)
  gauge NodeGroupCPURequest nodegroup (of_int (MilliValue cpuRequest)) ;;
  let bytesMemReq := fst (AsInt64 memRequest) in
  gauge NodeGroupMemRequest nodegroup (of_int bytesMemReq) ;;
  gauge NodeGroupCPUCapacity nodegroup (of_int (MilliValue cpuCapacity)) ;;
  let bytesMemCap := fst (AsInt64 memCapacity) in
  gauge NodeGroupMemCapacity nodegroup (of_int bytesMemCap) ;;

  (* Calc % *)
  let '(cpuPercent, memPercent, err) :=
    calcPercentUsage cpuRequest memRequest cpuCapacity memCapacity in
  when (ne_nil err) (
    log ErrorLevel None [AStr "Failed to calculate percentages: %v"; AErr err] ;;
    return_) ;;

  (* Metrics *)
  log InfoLevel (Some nodegroup) [AStr "cpu: %v, memory: %v"; AFloat cpuPercent; AFloat memPercent] ;;
  gauge NodeGroupsCPUPercent nodegroup cpuPercent ;;
  gauge NodeGroupsMemPercent nodegroup memPercent ;;

  (* Perform the scaling decision *)
  let maxPercent := to_int (Max cpuPercent memPercent) in

  (* Determine if we want to scale up for down. Selects the first
     condition that is true *)
  nodeGroup <- get ;;
  let nodesDelta := policySwitch (NodeGroupState_Opts nodeGroup) maxPercent in

  log DebugLevel (Some nodegroup) [AStr "Delta="; AInt nodesDelta] ;;

  (* Clamp the nodes inside the min and max node count *)
  nodesDeltaResult <- (
    if nodesDelta <? 0 then
      (* Try to scale down *)
      nodeGroup <- get ;;
      let opts := {|
        nodes := allNodes;
        taintedNodes := taintedNodes;
        untaintedNodes := untaintedNodes;
        pods := pods;
        nodeGroup := nodeGroup;
        clusterUsagePercent := maxPercent;
        nodesDelta := GoInt.neg nodesDelta |} in
      r <- mutate (Call_ScaleDown opts) (ScaleDown c opts) ;;
      let '(nodesDeltaResult, err) := r in
      when (ne_nil err) (log ErrorLevel (Some nodegroup) [AErr err]) ;;
      ret nodesDeltaResult
    else if nodesDelta >? 0 then
      (* Try to scale up *)
      nodeGroup <- get ;;
      let opts := {|
        nodes := allNodes;
        taintedNodes := taintedNodes;
        untaintedNodes := untaintedNodes;
        pods := pods;
        nodeGroup := nodeGroup;
        clusterUsagePercent := maxPercent;
        nodesDelta := nodesDelta |} in
      r <- mutate (Call_ScaleUp opts) (ScaleUp c opts) ;;
      let '(nodesDeltaResult, err) := r in
      when (ne_nil err) (log ErrorLevel (Some nodegroup) [AErr err]) ;;
      ret nodesDeltaResult
    else
      log InfoLevel (Some nodegroup) [AStr "No need to scale"] ;;
      nodeGroup <- get ;;
      let opts := {|
        nodes := allNodes;
        taintedNodes := taintedNodes;
        untaintedNodes := untaintedNodes;
        pods := pods;
        nodeGroup := nodeGroup;
        clusterUsagePercent := maxPercent;
        nodesDelta := 0 |} in
      r <- mutate (Call_TryRemoveTaintedNodes opts) (TryRemoveTaintedNodes c opts) ;;
      let '(removed, err) := r in
      when (ne_nil err) (log ErrorLevel (Some nodegroup) [AErr err]) ;;
      log InfoLevel (Some nodegroup)
        [AStr "There were"; AInt removed; AStr "nodes removed this round"] ;;
      ret 0) ;;

  log DebugLevel (Some nodegroup) [AStr "DeltaScaled="; AInt nodesDeltaResult].

(** What one call of [scaleNodeGroup] leaves behind: the group state and
    the events, whether the function ran to its end or returned early. *)
Definition run_cycle (c : Controller Node Pod) (nodegroup : string)
    (state : NodeGroupState Node Pod)
  : NodeGroupState Node Pod * list (Event Node Pod) :=
  let '(_, state', t) := scaleNodeGroup c nodegroup state in (state', t).

(** The call [c.scaleNodeGroup(nodegroup, state)] inside the sweep: the
    pointer [state] designates the object held under [nodegroup]. *)
Definition call_scaleNodeGroup (nodegroup : string) (state : NodeGroupState Node Pod)
  : M (Controller Node Pod) (Event Node Pod) unit :=
  fun c =>
    let '(state', t) := run_cycle c nodegroup state in
    (Some tt,
     {| Controller_Opts := Controller_Opts c;
        nodeGroups := <[nodegroup := state']> (nodeGroups c) |},
     t).

(** The body of the loop [for nodegroup, state := range c.nodeGroups] of
    [RunOnce], for the key the loop is at. *)
Definition sweepGroup (nodegroup : string) (_ : unit)
  : M (Controller Node Pod) (Event Node Pod) unit :=
  c <- get ;;
  match nodeGroups c !! nodegroup with
  | Some state =>
      emit (EvLog DebugLevel None [AStr "**********[START NODEGROUP]**********"]) ;;
      call_scaleNodeGroup nodegroup state
  | None => ret tt
  end.

(** RunOnce performs the main autoscaler logic once.  Go leaves the
    iteration order of a map open: [order] lists the keys in the order this
    sweep visits them.  [startTime] and [endTime] are the two readings of
    the clock. *)
Definition RunOnce (order : list string) (startTime endTime : Z)
  : M (Controller Node Pod) (Event Node Pod) unit :=
  (* Perform the ScaleUp/Taint logic *)
  range order sweepGroup tt ;;
  emit (EvLog DebugLevel None [AStr "Scaling took a total of %v"; ADuration startTime endTime]).

End Engine.

(** ** Vocabulary of the properties *)

(** The four branches of the policy, in the order the switch tries them. *)
Inductive Branch := FastDown | SlowDown | Up | Hold.

(** The policy as the specification words it: first match wins, in the
    order a, b, c, d. *)
Inductive selects (opts : NodeGroupOptions) (usage : Z) : Branch -> Prop :=
| selects_a :
    usage < TaintLowerCapacityThreshholdPercent opts ->
    selects opts usage FastDown
| selects_b :
    ~ usage < TaintLowerCapacityThreshholdPercent opts ->
    usage < TaintUpperCapacityThreshholdPercent opts ->
    selects opts usage SlowDown
| selects_c :
    ~ usage < TaintLowerCapacityThreshholdPercent opts ->
    ~ usage < TaintUpperCapacityThreshholdPercent opts ->
    usage > ScaleUpThreshholdPercent opts ->
    selects opts usage Up
| selects_d :
    ~ usage < TaintLowerCapacityThreshholdPercent opts ->
    ~ usage < TaintUpperCapacityThreshholdPercent opts ->
    ~ usage > ScaleUpThreshholdPercent opts ->
    selects opts usage Hold.

(** The delta each branch stands for; [-rate] is Go's negation of an [int]. *)
Definition branch_delta (opts : NodeGroupOptions) (b : Branch) : Z :=
  match b with
  | FastDown => GoInt.neg (FastNodeRemovalRate opts)
  | SlowDown => GoInt.neg (SlowNodeRemovalRate opts)
  | Up => FastNodeRevivalRate opts
  | Hold => 0
  end.

(** The rate a branch takes from the configuration. *)
Definition branch_rate (opts : NodeGroupOptions) (b : Branch) : Z :=
  match b with
  | FastDown => FastNodeRemovalRate opts
  | SlowDown => SlowNodeRemovalRate opts
  | Up => FastNodeRevivalRate opts
  | Hold => 0
  end.

(** The step rates are positive integers. *)
Definition positive_rates (opts : NodeGroupOptions) : Prop :=
  0 < SlowNodeRemovalRate opts <= GoInt.max_int /\
  0 < FastNodeRemovalRate opts <= GoInt.max_int /\
  0 < FastNodeRevivalRate opts <= GoInt.max_int.

(** [n] is the integer part of [m * 2^e], for [m] positive. *)
Definition integer_part (m : positive) (e n : Z) : Prop :=
  (0 <= e -> n = Z.pos m * 2 ^ e) /\
  (e < 0 -> n * 2 ^ (- e) <= Z.pos m < (n + 1) * 2 ^ (- e)).

(** The percentage as the specification words it: 100 times the ratio of
    the two milli-unit values, the ratio being a binary64 division. *)
Definition percent_of (requested capacity : Z) : float64 :=
  mul (of_int 100) (div (of_int requested) (of_int capacity)).

Section Vocabulary.

Context {Node Pod : Type} `{K : Collaborators Node Pod}.

Implicit Types (c : Controller Node Pod) (state : NodeGroupState Node Pod).
Implicit Types (node : Node) (e : Event Node Pod).

(** When the partition counts a node as tainted: under the effective
    dry-run flag by its name being in the tracker, otherwise by the taint
    predicate of package k8s. *)
Definition tainted c state node : Prop :=
  if dryMode c state then Node_Name node ∈ taintTracker state
  else GetToBeRemovedTaint node = true.

#[export] Instance tainted_dec c state node : Decision (tainted c state node).
Proof. unfold tainted. destruct (dryMode c state); apply _. Defined.

Definition taintedOf c state (allNodes : list Node) : list Node :=
  filter (tainted c state) allNodes.

Definition untaintedOf c state (allNodes : list Node) : list Node :=
  filter (fun node => ~ tainted c state node) allNodes.

(** The calls to the taint predicate a partition makes. *)
Definition taint_queries c state (allNodes : list Node) : list (Event Node Pod) :=
  if dryMode c state then []
  else map (fun node => EvCall (Call_GetToBeRemovedTaint node)) allNodes.

(** The three log lines and four gauges on the node and pod counts. *)
Definition count_signals (nodegroup : string) (pods : list Pod)
    (allNodes untaintedNodes taintedNodes : list Node) : list (Event Node Pod) :=
  [ EvLog InfoLevel (Some nodegroup) [AStr "nodes remaining total:"; AInt (GoInt.len allNodes)];
    EvLog InfoLevel (Some nodegroup) [AStr "nodes remaining untainted:"; AInt (GoInt.len untaintedNodes)];
    EvLog InfoLevel (Some nodegroup) [AStr "nodes remaining tainted:"; AInt (GoInt.len taintedNodes)];
    EvGauge NodeGroupNodes nodegroup (of_int (GoInt.len allNodes));
    EvGauge NodeGroupNodesUntainted nodegroup (of_int (GoInt.len untaintedNodes));
    EvGauge NodeGroupNodesTainted nodegroup (of_int (GoInt.len taintedNodes));
    EvGauge NodeGroupPods nodegroup (of_int (GoInt.len pods)) ].

(** Everything a cycle emits up to the bounds guard once both listings
    have succeeded. *)
Definition before_guard c (nodegroup : string) state (pods : list Pod)
    (allNodes : list Node) : list (Event Node Pod) :=
  [EvCall Call_Pods_List; EvCall Call_Nodes_List]
  ++ taint_queries c state allNodes
  ++ count_signals nodegroup pods allNodes
       (untaintedOf c state allNodes) (taintedOf c state allNodes).

(** The four gauges on the aggregated requests and capacities. *)
Definition total_signals (nodegroup : string)
    (memRequest cpuRequest memCapacity cpuCapacity : Quantity) : list (Event Node Pod) :=
  [ EvGauge NodeGroupCPURequest nodegroup (of_int (MilliValue cpuRequest));
    EvGauge NodeGroupMemRequest nodegroup (of_int (fst (AsInt64 memRequest)));
    EvGauge NodeGroupCPUCapacity nodegroup (of_int (MilliValue cpuCapacity));
    EvGauge NodeGroupMemCapacity nodegroup (of_int (fst (AsInt64 memCapacity))) ].

(** The log line and two gauges on the percentages. *)
Definition percent_signals (nodegroup : string) (cpuPercent memPercent : float64)
  : list (Event Node Pod) :=
  [ EvLog InfoLevel (Some nodegroup) [AStr "cpu: %v, memory: %v"; AFloat cpuPercent; AFloat memPercent];
    EvGauge NodeGroupsCPUPercent nodegroup cpuPercent;
    EvGauge NodeGroupsMemPercent nodegroup memPercent ].

(** Classes of events. *)
Definition is_mutation e : bool :=
  match e with
  | EvCall (Call_ScaleDown _) | EvCall (Call_ScaleUp _)
  | EvCall (Call_TryRemoveTaintedNodes _) => true
  | _ => false
  end.

Definition is_aggregation e : bool :=
  match e with
  | EvCall (Call_CalculatePodsRequestsTotal _)
  | EvCall (Call_CalculateNodesCapacityTotal _) => true
  | _ => false
  end.

Definition is_percent_signal e : bool :=
  match e with
  | EvGauge NodeGroupsCPUPercent _ _ | EvGauge NodeGroupsMemPercent _ _ => true
  | EvLog InfoLevel _ (AStr "cpu: %v, memory: %v" :: _) => true
  | _ => false
  end.

Definition is_warning e : bool :=
  match e with EvLog WarnLevel _ _ => true | _ => false end.

Definition is_error_log e : bool :=
  match e with EvLog ErrorLevel _ _ => true | _ => false end.

(** The calls to mutation operations in a trace, in order. *)
Definition mutations (t : list (Event Node Pod)) : list (Event Node Pod) :=
  List.filter is_mutation t.

(** The stages a cycle has to pass. *)
Definition listed state (pods : list Pod) (allNodes : list Node) : Prop :=
  Pods_List (Lister state) = (pods, None) /\
  Nodes_List (Lister state) = (allNodes, None).

Definition out_of_bounds state (allNodes : list Node) : Prop :=
  GoInt.len allNodes = 0 \/
  GoInt.len allNodes < MinNodes (NodeGroupState_Opts state) \/
  GoInt.len allNodes > MaxNodes (NodeGroupState_Opts state).

Definition within_bounds state (allNodes : list Node) : Prop :=
  GoInt.len allNodes <> 0 /\
  MinNodes (NodeGroupState_Opts state) <= GoInt.len allNodes /\
  GoInt.len allNodes <= MaxNodes (NodeGroupState_Opts state).

(** The cycle gets as far as aggregation. *)
Definition reaches_aggregation state (pods : list Pod) (allNodes : list Node) : Prop :=
  listed state pods allNodes /\ within_bounds state allNodes.

(** Both aggregations succeed, with these totals. *)
Definition aggregated c state (pods : list Pod) (allNodes : list Node)
    (memRequest cpuRequest memCapacity cpuCapacity : Quantity) : Prop :=
  CalculatePodsRequestsTotal pods = (memRequest, cpuRequest, None) /\
  CalculateNodesCapacityTotal (untaintedOf c state allNodes)
    = (memCapacity, cpuCapacity, None).

(** The cycle gets as far as the percentage computation. *)
Definition reaches_percent c state (pods : list Pod) (allNodes : list Node)
    (memRequest cpuRequest memCapacity cpuCapacity : Quantity) : Prop :=
  reaches_aggregation state pods allNodes /\
  aggregated c state pods allNodes memRequest cpuRequest memCapacity cpuCapacity.

(** The cycle gets as far as the dispatch. *)
Definition reaches_dispatch c state (pods : list Pod) (allNodes : list Node)
    (memRequest cpuRequest memCapacity cpuCapacity : Quantity) : Prop :=
  reaches_percent c state pods allNodes memRequest cpuRequest memCapacity cpuCapacity /\
  MilliValue cpuCapacity <> 0 /\ MilliValue memCapacity <> 0.

(** The control signal of a cycle with these totals. *)
Definition usage_of (memRequest cpuRequest memCapacity cpuCapacity : Quantity) : Z :=
  to_int (Max (percent_of (MilliValue cpuRequest) (MilliValue cpuCapacity))
              (percent_of (MilliValue memRequest) (MilliValue memCapacity))).

(** The options handed to the mutation operation at dispatch. *)
Definition dispatch_opts c state (pods : list Pod) (allNodes : list Node)
    (usage delta : Z) : scaleOpts Node Pod :=
  {| nodes := allNodes;
     taintedNodes := taintedOf c state allNodes;
     untaintedNodes := untaintedOf c state allNodes;
     pods := pods;
     nodeGroup := state;
     clusterUsagePercent := usage;
     nodesDelta := delta |}.

(** The warning of the bounds guard: its three tests in program order. *)
Definition bounds_warning (nodegroup : string) state (allNodes : list Node)
  : Event Node Pod :=
  if GoInt.len allNodes =? 0 then
    EvLog WarnLevel (Some nodegroup) [AStr "no nodes remaining"]
  else if GoInt.len allNodes <? MinNodes (NodeGroupState_Opts state) then
    EvLog WarnLevel (Some nodegroup)
      [AStr "Node count of %v less than minimum of %v";
       AInt (GoInt.len allNodes); AInt (MinNodes (NodeGroupState_Opts state))]
  else
    EvLog WarnLevel (Some nodegroup)
      [AStr "Node count of %v larger than maximum of %v";
       AInt (GoInt.len allNodes); AInt (MaxNodes (NodeGroupState_Opts state))].

(** The two aggregation calls of a cycle. *)
Definition aggregation_calls c state (pods : list Pod) (allNodes : list Node)
  : list (Event Node Pod) :=
  [ EvCall (Call_CalculatePodsRequestsTotal pods);
    EvCall (Call_CalculateNodesCapacityTotal (untaintedOf c state allNodes)) ].

(** The error line after a mutation operation, if it failed. *)
Definition error_line (nodegroup : string) (err : option error) : list (Event Node Pod) :=
  match err with
  | Some _ => [EvLog ErrorLevel (Some nodegroup) [AErr err]]
  | None => []
  end.

(** The mutation operation that goes with a branch of the policy. *)
Definition branch_call (b : Branch) (opts : scaleOpts Node Pod) : Event Node Pod :=
  match b with
  | FastDown | SlowDown => EvCall (Call_ScaleDown opts)
  | Up => EvCall (Call_ScaleUp opts)
  | Hold => EvCall (Call_TryRemoveTaintedNodes opts)
  end.

(** The call the dispatch makes, by the sign of [delta]. *)
Definition dispatch_call c state (pods : list Pod) (allNodes : list Node)
    (usage delta : Z) : Event Node Pod :=
  if delta <? 0 then
    EvCall (Call_ScaleDown (dispatch_opts c state pods allNodes usage (GoInt.neg delta)))
  else if delta >? 0 then
    EvCall (Call_ScaleUp (dispatch_opts c state pods allNodes usage delta))
  else
    EvCall (Call_TryRemoveTaintedNodes (dispatch_opts c state pods allNodes usage 0)).

(** The dispatch on the sign of [delta]: the group state it leaves and the
    events from the dispatch to the end of the cycle. *)
Definition dispatch c (nodegroup : string) state (pods : list Pod)
    (allNodes : list Node) (usage delta : Z)
  : NodeGroupState Node Pod * list (Event Node Pod) :=
  if delta <? 0 then
    let opts := dispatch_opts c state pods allNodes usage (GoInt.neg delta) in
    let '(affected, err, state') := ScaleDown c opts in
    (state',
     [EvCall (Call_ScaleDown opts)] ++ error_line nodegroup err
     ++ [EvLog DebugLevel (Some nodegroup) [AStr "DeltaScaled="; AInt affected]])
  else if delta >? 0 then
    let opts := dispatch_opts c state pods allNodes usage delta in
    let '(affected, err, state') := ScaleUp c opts in
    (state',
     [EvCall (Call_ScaleUp opts)] ++ error_line nodegroup err
     ++ [EvLog DebugLevel (Some nodegroup) [AStr "DeltaScaled="; AInt affected]])
  else
    let opts := dispatch_opts c state pods allNodes usage 0 in
    let '(removed, err, state') := TryRemoveTaintedNodes c opts in
    (state',
     [EvLog InfoLevel (Some nodegroup) [AStr "No need to scale"];
      EvCall (Call_TryRemoveTaintedNodes opts)] ++ error_line nodegroup err
     ++ [EvLog InfoLevel (Some nodegroup)
           [AStr "There were"; AInt removed; AStr "nodes removed this round"];
         EvLog DebugLevel (Some nodegroup) [AStr "DeltaScaled="; AInt 0]]).

(** The options of a call to a mutation operation. *)
Definition mutation_opts e : option (scaleOpts Node Pod) :=
  match e with
  | EvCall (Call_ScaleDown opts) | EvCall (Call_ScaleUp opts)
  | EvCall (Call_TryRemoveTaintedNodes opts) => Some opts
  | _ => None
  end.

(** The causes for which a cycle returns before the dispatch: a listing
    fails, the node count is out of bounds, an aggregation fails, a
    capacity is zero. *)
Inductive abort_cause c state : Prop :=
| abort_pods_fail pods (err : error) :
    Pods_List (Lister state) = (pods, Some err) ->
    abort_cause c state
| abort_nodes_fail pods allNodes (err : error) :
    Pods_List (Lister state) = (pods, None) ->
    Nodes_List (Lister state) = (allNodes, Some err) ->
    abort_cause c state
| abort_out_of_bounds pods allNodes :
    listed state pods allNodes ->
    out_of_bounds state allNodes ->
    abort_cause c state
| abort_requests_fail pods allNodes memRequest cpuRequest (err : error) :
    reaches_aggregation state pods allNodes ->
    CalculatePodsRequestsTotal pods = (memRequest, cpuRequest, Some err) ->
    abort_cause c state
| abort_capacity_fail pods allNodes memRequest cpuRequest memCapacity cpuCapacity (err : error) :
    reaches_aggregation state pods allNodes ->
    CalculatePodsRequestsTotal pods = (memRequest, cpuRequest, None) ->
    CalculateNodesCapacityTotal (untaintedOf c state allNodes)
      = (memCapacity, cpuCapacity, Some err) ->
    abort_cause c state
| abort_percent_fail pods allNodes memRequest cpuRequest memCapacity cpuCapacity :
    reaches_percent c state pods allNodes memRequest cpuRequest memCapacity cpuCapacity ->
    MilliValue cpuCapacity = 0 \/ MilliValue memCapacity = 0 ->
    abort_cause c state.

(** [order] is an order in which a sweep can visit the map of groups:
    every key once. *)
Definition iteration_order c (order : list string) : Prop :=
  order ≡ₚ (map_to_list (nodeGroups c)).*1.

(** The line the sweep logs before each cycle. *)
Definition start_line : Event Node Pod :=
  EvLog DebugLevel None [AStr "**********[START NODEGROUP]**********"].

Definition is_start_line e : bool :=
  match e with
  | EvLog DebugLevel None [AStr "**********[START NODEGROUP]**********"] => true
  | _ => false
  end.

(** One cycle of a sweep: the group, the controller and the group state
    when the cycle starts. *)
Record Visit := {
  visit_nodegroup : string;
  visit_controller : Controller Node Pod;
  visit_state : NodeGroupState Node Pod
}.

(** What a visit adds to the trace of the sweep. *)
Definition visit_events (v : Visit) : list (Event Node Pod) :=
  start_line
  :: snd (run_cycle (visit_controller v) (visit_nodegroup v) (visit_state v)).

(** What a visit has to do with the map before and after the sweep: it
    starts from the state the map held for its group before the sweep,
    under the options of the controller, and the map holds what its cycle
    left after the sweep. *)
Definition visit_of_sweep c c' (v : Visit) : Prop :=
  nodeGroups c !! visit_nodegroup v = Some (visit_state v) /\
  Controller_Opts (visit_controller v) = Controller_Opts c /\
  nodeGroups c' !! visit_nodegroup v
  = Some (fst (run_cycle (visit_controller v) (visit_nodegroup v) (visit_state v))).

End Vocabulary.

(** ** Construction and the control loop *)

(** The client of the controller, declared outside this source file:
    [NewController] reads one field of it, the map of listers by group
    name. *)
Record Client (Node Pod : Type) := {
  Listers : gmap string (NodeGroupLister Node Pod)
}.
Arguments Listers {Node Pod} _.

(** A NodeGroupState as [NewController] allocates it.  The struct embeds a
    pointer to the lister; here the pointer is what indexing the client's
    map gave, nil ([None]) for a name the map does not hold.
    [NodeGroupState] above holds the lister itself, as [scaleNodeGroup],
    which calls through the pointer, needs it. *)
Record FreshNodeGroupState (Node Pod : Type) := {
  fresh_Opts : NodeGroupOptions;
  fresh_Lister : option (NodeGroupLister Node Pod);
  fresh_taintTracker : list string
}.
Arguments fresh_Opts {Node Pod} _.
Arguments fresh_Lister {Node Pod} _.
Arguments fresh_taintTracker {Node Pod} _.

(** What [NewController] comes to: [log.Fatalln] has ended the process
    with this message, or the controller is built, with these options and
    this map of group states. *)
Inductive Construction (Node Pod : Type) :=
| Fatal (message : string)
| Built (opts : Opts) (nodeGroups : gmap string (FreshNodeGroupState Node Pod)).
Arguments Fatal {Node Pod} _.
Arguments Built {Node Pod} _ _.

(** What the [select] of [RunForever] receives next: the ticker fires, and
    the sweep this starts finds the map in [order] and reads the clock at
    [startTime] and [endTime]; or the stop channel delivers. *)
Inductive Signal :=
| Tick (order : list string) (startTime endTime : Z)
| Stop.

(** How far [RunForever] has got when the signals given to it are used up:
    it has returned, it waits in its [select], or it has panicked. *)
Inductive Exit := Returned | Waiting | Panicked.

Section Lifecycle.

Context {Node Pod : Type} `{K : Collaborators Node Pod}.

Local Open Scope string_scope.
Local Open Scope list_scope.
Local Open Scope Z_scope.
Local Open Scope cycle_scope.

(** NewController creates a new controller with the specified options.
    [client] is what [NewClient] returned for them, [None] for nil.  The
    taint tracker of a new state is the nil slice. *)
Definition NewController (opts : Opts) (client : option (Client Node Pod))
  : Construction Node Pod :=
  match client with
  | None => Fatal "Failed to create controller client"
  | Some client =>
      (* turn it into a map of name and nodegroupstate for O(1) lookup and
         data bundling *)
      let nodegroupMap :=
        fold_left (fun nodegroupMap nodeGroupOpts =>
          <[Name nodeGroupOpts :=
              {| fresh_Opts := nodeGroupOpts;
                 fresh_Lister := Listers client !! Name nodeGroupOpts;
                 fresh_taintTracker := [] |}]> nodegroupMap)
          (NodeGroups opts) ∅ in
      Built opts nodegroupMap
  end.

(** The loop [for { select { ... } }] of [RunForever], on the signals the
    [select] receives. *)
Fixpoint mainLoop (signals : list Signal)
  : M (Controller Node Pod) (Event Node Pod) Exit :=
  match signals with
  | [] => ret Waiting
  | Tick order startTime endTime :: signals' =>
      emit (EvLog DebugLevel None [AStr "**********[AUTOSCALER MAIN LOOP]**********"]) ;;
      RunOnce order startTime endTime ;;
      mainLoop signals'
  | Stop :: _ =>
      emit (EvLog DebugLevel None [AStr "Stopping main loop"]) ;;
      (* ticker.Stop() *)
      ret Returned
  end.

(** RunForever starts the autoscaler process and runs once every
    ScanInterval. blocks thread.  [order], [startTime] and [endTime] are
    what the immediate sweep finds, when there is one.  The ticker is local
    to the function; [time.NewTicker] panics on an interval that is not
    positive. *)
Definition RunForever (runImmediately : bool)
    (order : list string) (startTime endTime : Z) (signals : list Signal)
  : M (Controller Node Pod) (Event Node Pod) Exit :=
  when runImmediately (
    emit (EvLog DebugLevel None [AStr "**********[AUTOSCALER FIRST LOOP]**********"]) ;;
    RunOnce order startTime endTime) ;;

  (* Start the main loop *)
  c <- get ;;
  if ScanInterval (Controller_Opts c) <=? 0 then ret Panicked
  else mainLoop signals.

End Lifecycle.

(** ** Vocabulary of the further properties *)

Section FurtherVocabulary.

Context {Node Pod : Type} `{K : Collaborators Node Pod}.

Implicit Types (c : Controller Node Pod) (state : NodeGroupState Node Pod).
Implicit Types (e : Event Node Pod).

(** The state a cycle can run on, once the lister pointer is known not to
    be nil. *)
Definition attach (fresh : FreshNodeGroupState Node Pod)
  : option (NodeGroupState Node Pod) :=
  match fresh_Lister fresh with
  | Some lister =>
      Some {| NodeGroupState_Opts := fresh_Opts fresh;
              Lister := lister;
              taintTracker := fresh_taintTracker fresh |}
  | None => None
  end.

(** The controller a construction has built, when no lister pointer in it
    is nil. *)
Definition controller_of (built : Construction Node Pod)
  : option (Controller Node Pod) :=
  match built with
  | Fatal _ => None
  | Built opts nodeGroups =>
      if decide (map_Forall (fun _ fresh => is_Some (fresh_Lister fresh)) nodeGroups)
      then Some {| Controller_Opts := opts; nodeGroups := omap attach nodeGroups |}
      else None
  end.

(** The state [NewController] allocates for these options, with a client
    that holds these listers. *)
Definition fresh_state (listers : gmap string (NodeGroupLister Node Pod))
    (o : NodeGroupOptions) : FreshNodeGroupState Node Pod :=
  {| fresh_Opts := o; fresh_Lister := listers !! Name o; fresh_taintTracker := [] |}.

(** The map [NewController] builds from a list of options. *)
Definition built_groups (listers : gmap string (NodeGroupLister Node Pod))
    (l : list NodeGroupOptions) : gmap string (FreshNodeGroupState Node Pod) :=
  fold_left (fun m o => <[Name o := fresh_state listers o]> m) l ∅.

(** [o] is the last of the options in [l] that carry the name [name]. *)
Definition last_named (name : string) (l : list NodeGroupOptions)
    (o : NodeGroupOptions) : Prop :=
  exists before after,
    l = before ++ o :: after /\ Name o = name /\
    forall o', o' ∈ after -> Name o' <> name.

Definition is_gauge e : bool :=
  match e with EvGauge _ _ _ => true | _ => false end.

(** The line a sweep logs at its end. *)
Definition is_duration_line e : bool :=
  match e with
  | EvLog DebugLevel None (AStr "Scaling took a total of %v" :: _) => true
  | _ => false
  end.

(** A debug line without the group field: the lines of [RunOnce] and
    [RunForever] are such lines. *)
Definition is_loop_line e : bool :=
  match e with EvLog DebugLevel None _ => true | _ => false end.

(** The sweeps a trace shows, counted by their duration lines. *)
Definition sweeps (t : list (Event Node Pod)) : nat :=
  length (List.filter is_duration_line t).

(** The ticks among signals. *)
Definition is_tick (s : Signal) : bool :=
  match s with Tick _ _ _ => true | Stop => false end.

(** The ticks that come before the first stop. *)
Fixpoint ticks_until_stop (signals : list Signal) : nat :=
  match signals with
  | Tick _ _ _ :: signals' => S (ticks_until_stop signals')
  | _ => 0%nat
  end.

(** The line [RunForever] logs when the stop channel delivers. *)
Definition stop_line : Event Node Pod :=
  EvLog DebugLevel None [AStr "Stopping main loop"].


End FurtherVocabulary.

(** ** A concrete cluster

    Nodes and pods with just enough content to run the engine: a node has a
    name, a to-be-removed mark and a capacity; a pod has a request.
    Amounts are in milli-units. *)

Module Fixture.

Local Open Scope string_scope.
Local Open Scope list_scope.
Local Open Scope Z_scope.

Record node := { node_name : string; node_marked : bool; node_cpu : Z; node_mem : Z }.
Record pod := { pod_cpu : Z; pod_mem : Z }.

Definition quantity (milli : Z) : Quantity :=
  {| MilliValue := milli; AsInt64 := (milli / 1000, true) |}.

Definition sum (l : list Z) : Z := fold_right Z.add 0 l.

(** Scale-down marks the first [nodesDelta] untainted nodes in the tracker;
    scale-up clears the tracker; the reaper leaves the state alone. *)
#[export] Instance cluster : Collaborators node pod := {|
  Node_Name := node_name;
  GetToBeRemovedTaint := node_marked;
  CalculatePodsRequestsTotal := fun pods =>
    (quantity (sum (map pod_mem pods)), quantity (sum (map pod_cpu pods)), None);
  CalculateNodesCapacityTotal := fun nodes =>
    (quantity (sum (map node_mem nodes)), quantity (sum (map node_cpu nodes)), None);
  ScaleDown := fun _ opts =>
    (nodesDelta opts, None,
     {| NodeGroupState_Opts := NodeGroupState_Opts (nodeGroup opts);
        Lister := Lister (nodeGroup opts);
        taintTracker := taintTracker (nodeGroup opts) ++
          map node_name (take (Z.to_nat (nodesDelta opts)) (untaintedNodes opts)) |});
  ScaleUp := fun _ opts =>
    (nodesDelta opts, None,
     {| NodeGroupState_Opts := NodeGroupState_Opts (nodeGroup opts);
        Lister := Lister (nodeGroup opts);
        taintTracker := [] |});
  TryRemoveTaintedNodes := fun _ opts => (0, Some "nothing to reap", nodeGroup opts)
|}.

Definition options (dry : bool) (lower upper up : Z) : NodeGroupOptions := {|
  Name := "default";
  MinNodes := 1;
  MaxNodes := 10;
  DryMode := dry;
  TaintUpperCapacityThreshholdPercent := upper;
  TaintLowerCapacityThreshholdPercent := lower;
  ScaleUpThreshholdPercent := up;
  SlowNodeRemovalRate := 1;
  FastNodeRemovalRate := 2;
  FastNodeRevivalRate := 3
|}.

Definition worker (name : string) (marked : bool) : node :=
  {| node_name := name; node_marked := marked; node_cpu := 1000; node_mem := 4000 |}.

Definition five_nodes : list node :=
  [worker "n1" false; worker "n2" true; worker "n3" false; worker "n4" false;
   worker "n5" false].

Definition load (cpu mem : Z) : list pod := [{| pod_cpu := cpu; pod_mem := mem |}].

Definition state (o : NodeGroupOptions) (ns : list node) (ps : list pod)
    (tracker : list string) : NodeGroupState node pod :=
  {| NodeGroupState_Opts := o;
     Lister := {| Pods_List := (ps, None); Nodes_List := (ns, None) |};
     taintTracker := tracker |}.

Definition controller (dry : bool) (groups : list (string * NodeGroupState node pod))
  : Controller node pod :=
  {| Controller_Opts := {| NodeGroups := map (fun g => NodeGroupState_Opts (snd g)) groups;
                           ScanInterval := 60; Opts_DryMode := dry |};
     nodeGroups := list_to_map groups |}.

(** Thresholds 20, 50 and 80 on five nodes, one of them marked: four
    untainted nodes, 4000 milli-CPU and 16000 of memory. *)
Definition thresholds : NodeGroupOptions := options false 20 50 80.

(** CPU at 90 percent, memory at 4. *)
Definition busy : NodeGroupState node pod := state thresholds five_nodes (load 3600 640) [].

(** CPU at 10 percent. *)
Definition idle : NodeGroupState node pod := state thresholds five_nodes (load 400 640) [].

(** CPU at 35 percent. *)
Definition cool : NodeGroupState node pod := state thresholds five_nodes (load 1400 640) [].

(** No node at all. *)
Definition empty : NodeGroupState node pod := state thresholds [] (load 400 640) [].

(** Dry-run for the group, with one node in the tracker; CPU at 60 percent
    of the four nodes left. *)
Definition rehearsal : NodeGroupState node pod :=
  state (options true 20 50 80) five_nodes (load 2400 640) ["n3"].

(** CPU at 60 percent. *)
Definition steady : NodeGroupState node pod := state thresholds five_nodes (load 2400 640) [].

(** Twelve nodes for a maximum of ten. *)
Definition crowded : NodeGroupState node pod :=
  state thresholds (five_nodes ++ five_nodes ++ [worker "n11" false; worker "n12" false])
    (load 3600 640) [].

(** Every node is marked: no capacity is left to divide by. *)
Definition drained : NodeGroupState node pod :=
  state thresholds [worker "n1" true; worker "n2" true] (load 3600 640) [].

(** The lower taint threshold above the upper one; CPU at 30 percent. *)
Definition misordered : NodeGroupState node pod :=
  state (options false 50 20 80) five_nodes (load 1200 640) [].

(** A group whose pods cannot be listed. *)
Definition unlisted : NodeGroupState node pod :=
  {| NodeGroupState_Opts := thresholds;
     Lister := {| Pods_List := ([], Some "pods unavailable"); Nodes_List := (five_nodes, None) |};
     taintTracker := [] |}.

Definition lone : Controller node pod := controller false [].

Definition pair : Controller node pod := controller false [("a", unlisted); ("b", busy)].

(** The minimum above the maximum. *)
Definition inverted : NodeGroupState node pod :=
  {| NodeGroupState_Opts :=
       {| Name := "default"; MinNodes := 6; MaxNodes := 4; DryMode := false;
          TaintUpperCapacityThreshholdPercent := 50;
          TaintLowerCapacityThreshholdPercent := 20;
          ScaleUpThreshholdPercent := 80;
          SlowNodeRemovalRate := 1; FastNodeRemovalRate := 2; FastNodeRevivalRate := 3 |};
     Lister := {| Pods_List := (load 3600 640, None); Nodes_List := (five_nodes, None) |};
     taintTracker := [] |}.

(** Dry-run for the group, nothing tracked yet. *)
Definition opening : NodeGroupState node pod :=
  state (options true 20 50 80) five_nodes (load 2400 640) [].

(** A controller whose only group cannot list its pods. *)
Definition blind : Controller node pod := controller false [("a", unlisted)].

(** A controller with a scan interval of zero. *)
Definition halted : Controller node pod :=
  {| Controller_Opts := {| NodeGroups := [thresholds]; ScanInterval := 0;
                           Opts_DryMode := false |};
     nodeGroups := {["default" := busy]} |}.

(** Options that configure the name "default" twice and "spare" once, and
    a client with a lister for both names. *)
Definition doubled : Opts :=
  {| NodeGroups := [options false 20 50 80; options true 10 40 70;
                    {| Name := "spare"; MinNodes := 1; MaxNodes := 3; DryMode := false;
                       TaintUpperCapacityThreshholdPercent := 50;
                       TaintLowerCapacityThreshholdPercent := 20;
                       ScaleUpThreshholdPercent := 80;
                       SlowNodeRemovalRate := 1; FastNodeRemovalRate := 2;
                       FastNodeRevivalRate := 3 |}];
     ScanInterval := 60; Opts_DryMode := false |}.

Definition listing : NodeGroupLister node pod :=
  {| Pods_List := (load 2400 640, None); Nodes_List := (five_nodes, None) |}.

Definition client : Client node pod :=
  {| Listers := {["default" := listing; "spare" := listing]} |}.

End Fixture.


(** ** Properties *)

(** *** Go integers *)

Lemma wrap_in_range z : GoInt.in_range z -> GoInt.wrap z = z.
Proof.
  unfold GoInt.in_range, GoInt.wrap, GoInt.min_int, GoInt.max_int. intros H.
  rewrite Z.mod_small; lia.
Qed.

Lemma neg_opp x : GoInt.min_int < x <= GoInt.max_int -> GoInt.neg x = - x.
Proof.
  intros H. unfold GoInt.neg. apply wrap_in_range.
  unfold GoInt.in_range, GoInt.min_int, GoInt.max_int in *. lia.
Qed.

Lemma neg_min_int : GoInt.neg GoInt.min_int = GoInt.min_int.
Proof. reflexivity. Qed.

Lemma neg_involutive x : GoInt.in_range x -> GoInt.neg (GoInt.neg x) = x.
Proof.
  intros H. destruct (Z.eq_dec x GoInt.min_int) as [->|Hne]; [reflexivity|].
  assert (GoInt.min_int < x <= GoInt.max_int) as Hx
    by (unfold GoInt.in_range in H; lia).
  rewrite (neg_opp x Hx), neg_opp; unfold GoInt.min_int, GoInt.max_int in *; lia.
Qed.

Lemma neg_in_range x : GoInt.in_range (GoInt.neg x).
Proof.
  unfold GoInt.neg, GoInt.wrap, GoInt.in_range, GoInt.min_int, GoInt.max_int.
  pose proof (Z.mod_pos_bound (- x + 2 ^ 63) (2 ^ 64)). lia.
Qed.

(** *** Floating point *)

Lemma mul_comm (x y : float64) : mul x y = mul y x.
Proof.
  unfold mul. destruct x as [sx|sx| |sx mx ex], y as [sy|sy| |sy my ey]; simpl;
    try reflexivity; try (by rewrite xorb_comm).
  by rewrite xorb_comm, Pos.mul_comm, Z.add_comm.
Qed.

Lemma compare_irrefl (x : float64) : SFcompare x x <> Some Lt.
Proof.
  destruct x as [s|s| |s m e]; simpl; try discriminate.
  - by destruct s.
  - rewrite Z.compare_refl, Pos.compare_cont_refl. by destruct s.
Qed.

Lemma compare_asym (x y : float64) :
  SFcompare y x = Some Lt -> SFcompare x y = Some Gt.
Proof.
  destruct x as [sx|sx| |sx mx ex], y as [sy|sy| |sy my ey]; simpl;
    try discriminate; try (by destruct sx); try (by destruct sy);
    try (by destruct sx, sy).
  pose proof (Z.compare_antisym ey ex) as Hz.
  pose proof (Pos.compare_cont_antisym my mx Eq) as Hp. simpl in Hp.
  rewrite Hz, <- Hp.
  destruct sx, sy; try discriminate; try reflexivity;
    destruct (ey ?= ex); simpl; try discriminate; try reflexivity;
    destruct (Pos.compare_cont Eq my mx); simpl; try discriminate; reflexivity.
Qed.

Lemma ltb_irrefl (x : float64) : ltb x x = false.
Proof.
  unfold ltb, SFltb. pose proof (compare_irrefl x).
  by destruct (SFcompare x x) as [[]|].
Qed.

Lemma ltb_asym (x y : float64) : ltb y x = true -> ltb x y = false.
Proof.
  unfold ltb, SFltb. intros H.
  destruct (SFcompare y x) as [[]|] eqn:E; try discriminate.
  by rewrite (compare_asym _ _ E).
Qed.

(** [math.Max] returns one of its arguments. *)
Lemma Max_cases (x y : float64) : Max x y = x \/ Max x y = y.
Proof.
  unfold Max.
  destruct (is_pos_inf x) eqn:Hx.
  { left. by destruct x as [|[]| |]. }
  destruct (is_pos_inf y) eqn:Hy.
  { right. by destruct y as [|[]| |]. }
  cbn [orb].
  destruct (is_nan x) eqn:Nx.
  { left. by destruct x. }
  destruct (is_nan y) eqn:Ny.
  { right. by destruct y. }
  cbn [orb].
  destruct (is_zero x && eqb x y); [destruct (signbit x); tauto|].
  destruct (ltb y x); tauto.
Qed.

(** Neither argument of [math.Max] is above the result. *)
Lemma Max_not_below (x y : float64) :
  ltb (Max x y) x = false /\ ltb (Max x y) y = false.
Proof.
  unfold Max.
  destruct (is_pos_inf x || is_pos_inf y) eqn:Hinf.
  { split; [by destruct x as [|[]| |]|by destruct y as [|[]| |]]. }
  destruct (is_nan x || is_nan y) eqn:Hnan; [done|].
  destruct (is_zero x && eqb x y) eqn:Hz.
  { apply andb_true_iff in Hz as [Hzx Heq].
    destruct x as [sx| | |]; try discriminate.
    destruct y as [sy|sy| |sy my ey]; try discriminate;
      [by destruct sx|by destruct sy|by destruct sy]. }
  destruct (ltb y x) eqn:Hlt.
  - split; [apply ltb_irrefl|by apply ltb_asym].
  - split; [done|apply ltb_irrefl].
Qed.

(** [magnitude] is the integer part. *)
Lemma magnitude_integer_part (m : positive) (e : Z) :
  integer_part m e (magnitude m e).
Proof.
  unfold integer_part, magnitude. split; intros He.
  - rewrite (proj2 (Z.leb_le 0 e)) by done. by apply Z.shiftl_mul_pow2.
  - rewrite (proj2 (Z.leb_gt 0 e)) by done.
    rewrite Z.shiftr_div_pow2 by lia.
    assert (0 < 2 ^ (- e)) as Hpos by (apply Z.pow_pos_nonneg; lia).
    pose proof (Z.div_mod (Z.pos m) (2 ^ (- e))) as Hdiv.
    pose proof (Z.mod_pos_bound (Z.pos m) (2 ^ (- e)) Hpos) as Hmod.
    nia.
Qed.

(** [int(f)] of a finite float whose integer part fits is that integer
    part, with the sign of the float. *)
Lemma to_int_finite (s : bool) (m : positive) (e : Z) :
  magnitude m e <= GoInt.max_int ->
  to_int (S754_finite s m e) = if s then - magnitude m e else magnitude m e.
Proof.
  intros Hfit. unfold to_int.
  assert (0 <= magnitude m e) as Hnn.
  { unfold magnitude. destruct (0 <=? e).
    - apply Z.shiftl_nonneg. lia.
    - apply Z.shiftr_nonneg. lia. }
  unfold GoInt.min_int, GoInt.max_int in *.
  destruct s.
  - rewrite (proj2 (Z.leb_le _ _)) by lia. by rewrite (proj2 (Z.leb_le _ _)) by lia.
  - rewrite (proj2 (Z.leb_le _ _)) by lia. by rewrite (proj2 (Z.leb_le _ _)) by lia.
Qed.

Lemma calcPercentUsage_percent_of cpuR memR cpuA memA :
  MilliValue cpuA <> 0 -> MilliValue memA <> 0 ->
  calcPercentUsage cpuR memR cpuA memA
  = (percent_of (MilliValue cpuR) (MilliValue cpuA),
     percent_of (MilliValue memR) (MilliValue memA), None).
Proof.
  intros Hc Hm. unfold calcPercentUsage, percent_of.
  destruct (MilliValue cpuA =? 0) eqn:Ec; [lia|].
  destruct (MilliValue memA =? 0) eqn:Em; [lia|]. cbn [orb].
  f_equal. f_equal; apply mul_comm.
Qed.

(** *** The partition loop *)

Section Properties.

Context {Node Pod : Type} `{K : Collaborators Node Pod}.

Implicit Types (c : Controller Node Pod) (state : NodeGroupState Node Pod).
Implicit Types (node : Node) (allNodes : list Node) (pods : list Pod).
Implicit Types (nodegroup : string).

Lemma range_break_contains (name : string) (tracker : list string) :
  range_break tracker (fun n contains =>
    if String.eqb name n then (true, true) else (contains, false)) false
  = bool_decide (name ∈ tracker).
Proof.
  induction tracker as [|n tracker IH]; simpl.
  - reflexivity.
  - destruct (String.eqb_spec name n) as [->|Hne].
    + symmetry. apply bool_decide_eq_true_2. left.
    + rewrite IH. apply bool_decide_ext. rewrite elem_of_cons. tauto.
Qed.

Lemma filterNode_run c node (u t : list Node) state :
  filterNode c node (u, t) state
  = (Some (if decide (tainted c state node) then (u, t ++ [node]) else (u ++ [node], t)),
     state, taint_queries c state [node]).
Proof.
  unfold filterNode, bind, get, taint_queries. simpl.
  destruct (decide (tainted c state node)) as [Ht|Ht];
    unfold tainted in Ht; destruct (dryMode c state); simpl.
  - rewrite range_break_contains, bool_decide_eq_true_2 by done. reflexivity.
  - rewrite Ht. reflexivity.
  - rewrite range_break_contains, bool_decide_eq_false_2 by done. reflexivity.
  - apply not_true_is_false in Ht. rewrite Ht. reflexivity.
Qed.

Lemma partition_run c allNodes : forall (u t : list Node) state,
  range allNodes (filterNode c) (u, t) state
  = (Some (u ++ untaintedOf c state allNodes, t ++ taintedOf c state allNodes),
     state, taint_queries c state allNodes).
Proof.
  induction allNodes as [|node allNodes IH]; intros u t state.
  - unfold taint_queries. simpl. rewrite !app_nil_r. by destruct (dryMode c state).
  - cbn [range]. unfold bind at 1. rewrite filterNode_run.
    unfold untaintedOf, taintedOf. rewrite !filter_cons.
    destruct (decide (tainted c state node)) as [Ht|Ht]; rewrite IH.
    + rewrite decide_False by tauto. rewrite <- app_assoc.
      unfold taint_queries. by destruct (dryMode c state).
    + rewrite decide_True by tauto. rewrite <- app_assoc.
      unfold taint_queries. by destruct (dryMode c state).
Qed.

(** C5.  The partition loop consults one back-end, chosen by the effective
    dry-run flag, the global flag or the flag of the group.  Under it a
    node is tainted exactly when its name is in the simulated taint tracker
    and the taint predicate is never called; otherwise a node is tainted
    exactly when the taint predicate holds for it, which is called once for
    each node.  In both modes no node is in both lists and the two lists
    together are the listed nodes; the loop leaves the group state as it
    was. *)
Theorem partition_by_one_backend c state allNodes :
  exists untainted tainted queries,
    range allNodes (filterNode c) ([], []) state
    = (Some (untainted, tainted), state, queries) /\
    dryMode c state
    = Opts_DryMode (Controller_Opts c) || DryMode (NodeGroupState_Opts state) /\
    (dryMode c state = true ->
       queries = [] /\
       forall node,
         node ∈ tainted <-> node ∈ allNodes /\ Node_Name node ∈ taintTracker state) /\
    (dryMode c state = false ->
       queries = map (fun node => EvCall (Call_GetToBeRemovedTaint node)) allNodes /\
       forall node,
         node ∈ tainted <-> node ∈ allNodes /\ GetToBeRemovedTaint node = true) /\
    (forall node, ~ (node ∈ tainted /\ node ∈ untainted)) /\
    (forall node, node ∈ allNodes <-> node ∈ tainted \/ node ∈ untainted) /\
    tainted ++ untainted ≡ₚ allNodes.
Proof.
  exists (untaintedOf c state allNodes), (taintedOf c state allNodes),
    (taint_queries c state allNodes).
  split; [apply (partition_run c allNodes [] [] state)|].
  split; [reflexivity|].
  unfold untaintedOf, taintedOf, taint_queries.
  split; [|split; [|split; [|split]]].
  - intros Hdry. split; [by rewrite Hdry|].
    intros node. rewrite list_elem_of_filter. unfold tainted. rewrite Hdry. tauto.
  - intros Hdry. split; [by rewrite Hdry|].
    intros node. rewrite list_elem_of_filter. unfold tainted. rewrite Hdry. tauto.
  - intros node. rewrite !list_elem_of_filter. tauto.
  - intros node. rewrite !list_elem_of_filter.
    destruct (decide (tainted c state node)); tauto.
  - apply filter_app_complement.
Qed.

(** *** Running a cycle, stage by stage *)

Lemma cycle_pods_fail c nodegroup state pods e :
  Pods_List (Lister state) = (pods, Some e) ->
  scaleNodeGroup c nodegroup state
  = (None, state,
     [EvCall Call_Pods_List;
      EvLog ErrorLevel None [AStr "Failed to list pods: %v"; AErr (Some e)]]).
Proof.
  intros Hpods. unfold scaleNodeGroup.
  unfold bind, get, call, emit, ret. simpl. rewrite Hpods. simpl.
  reflexivity.
Qed.

Lemma cycle_nodes_fail c nodegroup state pods allNodes e :
  Pods_List (Lister state) = (pods, None) ->
  Nodes_List (Lister state) = (allNodes, Some e) ->
  scaleNodeGroup c nodegroup state
  = (None, state,
     [EvCall Call_Pods_List; EvCall Call_Nodes_List;
      EvLog ErrorLevel None [AStr "Failed to list nodes: %v"; AErr (Some e)]]).
Proof.
  intros Hpods Hnodes. unfold scaleNodeGroup.
  unfold bind, get, call, emit, ret. simpl. rewrite Hpods. simpl.
  rewrite Hnodes. simpl.
  reflexivity.
Qed.

(** Runs the cycle symbolically through both listings and the partition. *)
Ltac run_listing Hpods Hnodes :=
  unfold scaleNodeGroup;
  unfold bind at 1 2 3 4 5 6 7 8; unfold get, call, emit, ret; simpl;
  rewrite Hpods; simpl; rewrite Hnodes; simpl;
  unfold bind at 1; rewrite partition_run;
  unfold log, gauge, when, emit, return_, get, ret.

(** Closes an equation between two results whose traces differ by the
    bracketing of [++]. *)
Ltac trace_eq :=
  rewrite <- ?app_assoc; simpl; rewrite ?app_nil_r; reflexivity.

Lemma cycle_out_of_bounds c nodegroup state pods allNodes :
  listed state pods allNodes ->
  out_of_bounds state allNodes ->
  scaleNodeGroup c nodegroup state
  = (None, state,
     before_guard c nodegroup state pods allNodes
     ++ [bounds_warning nodegroup state allNodes]).
Proof.
  intros [Hpods Hnodes] Hout. run_listing Hpods Hnodes.
  unfold before_guard, bounds_warning, count_signals.
  unfold bind. simpl.
  destruct (GoInt.len allNodes =? 0) eqn:H0; simpl.
  { trace_eq. }
  destruct (GoInt.len allNodes <? MinNodes (NodeGroupState_Opts state)) eqn:Hmin; simpl.
  { trace_eq. }
  destruct (GoInt.len allNodes >? MaxNodes (NodeGroupState_Opts state)) eqn:Hmax; simpl.
  { trace_eq. }
  exfalso. unfold out_of_bounds in Hout. lia.
Qed.

Lemma within_bounds_tests state allNodes :
  within_bounds state allNodes ->
  (GoInt.len allNodes =? 0) = false /\
  (GoInt.len allNodes <? MinNodes (NodeGroupState_Opts state)) = false /\
  (GoInt.len allNodes >? MaxNodes (NodeGroupState_Opts state)) = false.
Proof. unfold within_bounds. lia. Qed.

(** Runs the cycle symbolically up to the first aggregation call. *)
Ltac run_guard Hpods Hnodes Hin :=
  run_listing Hpods Hnodes;
  destruct (within_bounds_tests _ _ Hin) as (H0 & Hmin & Hmax);
  unfold bind; simpl; rewrite H0; simpl; rewrite Hmin; simpl; rewrite Hmax; simpl.

Lemma cycle_requests_fail c nodegroup state pods allNodes memRequest cpuRequest e :
  reaches_aggregation state pods allNodes ->
  CalculatePodsRequestsTotal pods = (memRequest, cpuRequest, Some e) ->
  scaleNodeGroup c nodegroup state
  = (None, state,
     before_guard c nodegroup state pods allNodes
     ++ [EvCall (Call_CalculatePodsRequestsTotal pods);
         EvLog ErrorLevel None [AStr "Failed to calculate requests: %v"; AErr (Some e)]]).
Proof.
  intros [[Hpods Hnodes] Hin] Hreq. run_guard Hpods Hnodes Hin.
  rewrite Hreq. simpl. unfold before_guard, count_signals. trace_eq.
Qed.

Lemma cycle_capacity_fail c nodegroup state pods allNodes
    memRequest cpuRequest memCapacity cpuCapacity e :
  reaches_aggregation state pods allNodes ->
  CalculatePodsRequestsTotal pods = (memRequest, cpuRequest, None) ->
  CalculateNodesCapacityTotal (untaintedOf c state allNodes)
    = (memCapacity, cpuCapacity, Some e) ->
  scaleNodeGroup c nodegroup state
  = (None, state,
     before_guard c nodegroup state pods allNodes
     ++ aggregation_calls c state pods allNodes
     ++ [EvLog ErrorLevel None [AStr "Failed to calculate capacity: %v"; AErr (Some e)]]).
Proof.
  intros [[Hpods Hnodes] Hin] Hreq Hcap. run_guard Hpods Hnodes Hin.
  rewrite Hreq. simpl. rewrite Hcap. simpl.
  unfold before_guard, count_signals, aggregation_calls. trace_eq.
Qed.

Lemma calcPercentUsage_zero cpuR memR cpuA memA :
  MilliValue cpuA = 0 \/ MilliValue memA = 0 ->
  calcPercentUsage cpuR memR cpuA memA
  = (of_int 0, of_int 0, Some "Cannot divide by zero in percent calculation"%string).
Proof.
  intros H. unfold calcPercentUsage.
  destruct (MilliValue cpuA =? 0) eqn:Hc; [reflexivity|].
  destruct (MilliValue memA =? 0) eqn:Hm; [reflexivity|]. lia.
Qed.

Lemma cycle_percent_fail c nodegroup state pods allNodes
    memRequest cpuRequest memCapacity cpuCapacity :
  reaches_percent c state pods allNodes memRequest cpuRequest memCapacity cpuCapacity ->
  MilliValue cpuCapacity = 0 \/ MilliValue memCapacity = 0 ->
  scaleNodeGroup c nodegroup state
  = (None, state,
     before_guard c nodegroup state pods allNodes
     ++ aggregation_calls c state pods allNodes
     ++ total_signals nodegroup memRequest cpuRequest memCapacity cpuCapacity
     ++ [EvLog ErrorLevel None
           [AStr "Failed to calculate percentages: %v";
            AErr (Some "Cannot divide by zero in percent calculation"%string)]]).
Proof.
  intros [[[Hpods Hnodes] Hin] [Hreq Hcap]] Hzero. run_guard Hpods Hnodes Hin.
  rewrite Hreq. simpl. rewrite Hcap. simpl.
  rewrite (calcPercentUsage_zero _ _ _ _ Hzero). simpl.
  unfold before_guard, count_signals, aggregation_calls, total_signals. trace_eq.
Qed.

Lemma cycle_dispatch c nodegroup state pods allNodes
    memRequest cpuRequest memCapacity cpuCapacity :
  reaches_dispatch c state pods allNodes memRequest cpuRequest memCapacity cpuCapacity ->
  let usage := usage_of memRequest cpuRequest memCapacity cpuCapacity in
  let delta := policySwitch (NodeGroupState_Opts state) usage in
  scaleNodeGroup c nodegroup state
  = (Some tt,
     fst (dispatch c nodegroup state pods allNodes usage delta),
     before_guard c nodegroup state pods allNodes
     ++ aggregation_calls c state pods allNodes
     ++ total_signals nodegroup memRequest cpuRequest memCapacity cpuCapacity
     ++ percent_signals nodegroup
          (percent_of (MilliValue cpuRequest) (MilliValue cpuCapacity))
          (percent_of (MilliValue memRequest) (MilliValue memCapacity))
     ++ [EvLog DebugLevel (Some nodegroup) [AStr "Delta="; AInt delta]]
     ++ snd (dispatch c nodegroup state pods allNodes usage delta)).
Proof.
  intros [[[[Hpods Hnodes] Hin] [Hreq Hcap]] [Hc Hm]] usage delta.
  run_guard Hpods Hnodes Hin.
  rewrite Hreq. simpl. rewrite Hcap. simpl.
  rewrite (calcPercentUsage_percent_of _ _ _ _ Hc Hm). cbn [ne_nil].
  fold (usage_of memRequest cpuRequest memCapacity cpuCapacity). fold usage. fold delta.
  clearbody delta usage.
  unfold dispatch, mutate, dispatch_opts.
  unfold before_guard, count_signals, aggregation_calls, total_signals, percent_signals.
  destruct (delta <? 0) eqn:Hneg; simpl.
  { destruct (ScaleDown c _) as [[affected err] state']. simpl.
    destruct err; simpl; trace_eq. }
  destruct (delta >? 0) eqn:Hpos; simpl.
  { destruct (ScaleUp c _) as [[affected err] state']. simpl.
    destruct err; simpl; trace_eq. }
  destruct (TryRemoveTaintedNodes c _) as [[removed err] state']. simpl.
  destruct err; simpl; trace_eq.
Qed.

(** From here on a cycle is reasoned about through the lemmas above. *)
#[global] Opaque scaleNodeGroup.

(** Every cycle has a cause to return early or gets to the dispatch. *)
Lemma abort_or_dispatch c state :
  abort_cause c state \/
  exists pods allNodes memRequest cpuRequest memCapacity cpuCapacity,
    reaches_dispatch c state pods allNodes memRequest cpuRequest memCapacity cpuCapacity.
Proof.
  destruct (Pods_List (Lister state)) as [pods [e|]] eqn:Hpods.
  { left. by eapply abort_pods_fail. }
  destruct (Nodes_List (Lister state)) as [allNodes [e|]] eqn:Hnodes.
  { left. by eapply abort_nodes_fail. }
  assert (out_of_bounds state allNodes \/ within_bounds state allNodes) as [Hout|Hin]
    by (unfold out_of_bounds, within_bounds; lia).
  { left. by eapply abort_out_of_bounds. }
  assert (reaches_aggregation state pods allNodes) as Hagg by done.
  destruct (CalculatePodsRequestsTotal pods) as [[memRequest cpuRequest] [e|]] eqn:Hreq.
  { left. by eapply abort_requests_fail. }
  destruct (CalculateNodesCapacityTotal (untaintedOf c state allNodes))
    as [[memCapacity cpuCapacity] [e|]] eqn:Hcap.
  { left. by eapply abort_capacity_fail. }
  assert (reaches_percent c state pods allNodes memRequest cpuRequest memCapacity cpuCapacity)
    as Hpct by done.
  destruct (Z.eq_dec (MilliValue cpuCapacity) 0) as [Hc|Hc].
  { left. eapply abort_percent_fail; eauto. }
  destruct (Z.eq_dec (MilliValue memCapacity) 0) as [Hm|Hm].
  { left. eapply abort_percent_fail; eauto. }
  right. exists pods, allNodes, memRequest, cpuRequest, memCapacity, cpuCapacity.
  split; [exact Hpct | by split].
Qed.

(** *** Classes of events in the segments of a trace *)

Lemma filter_taint_queries (p : Event Node Pod -> bool) c state allNodes :
  (forall node, p (EvCall (Call_GetToBeRemovedTaint node)) = false) ->
  List.filter p (taint_queries c state allNodes) = [].
Proof.
  intros Hp. unfold taint_queries. destruct (dryMode c state); [reflexivity|].
  induction allNodes as [|node allNodes IH]; [reflexivity|].
  simpl. by rewrite Hp.
Qed.

Lemma filter_before_guard (p : Event Node Pod -> bool) c nodegroup state pods allNodes :
  (forall node, p (EvCall (Call_GetToBeRemovedTaint node)) = false) ->
  p (EvCall Call_Pods_List) = false ->
  p (EvCall Call_Nodes_List) = false ->
  (forall args, p (EvLog InfoLevel (Some nodegroup) (AStr "nodes remaining total:" :: args)) = false) ->
  (forall args, p (EvLog InfoLevel (Some nodegroup) (AStr "nodes remaining untainted:" :: args)) = false) ->
  (forall args, p (EvLog InfoLevel (Some nodegroup) (AStr "nodes remaining tainted:" :: args)) = false) ->
  (forall v, p (EvGauge NodeGroupNodes nodegroup v) = false) ->
  (forall v, p (EvGauge NodeGroupNodesUntainted nodegroup v) = false) ->
  (forall v, p (EvGauge NodeGroupNodesTainted nodegroup v) = false) ->
  (forall v, p (EvGauge NodeGroupPods nodegroup v) = false) ->
  List.filter p (before_guard c nodegroup state pods allNodes) = [].
Proof.
  intros Hq Hp Hn H1 H2 H3 H4 H5 H6 H7. unfold before_guard, count_signals.
  rewrite !List.filter_app, filter_taint_queries by done.
  simpl. by rewrite Hp, Hn, H1, H2, H3, H4, H5, H6, H7.
Qed.

(** Applies [filter_before_guard] to one of the boolean classes. *)
Ltac quiet_before_guard := apply filter_before_guard; intros; reflexivity.

Lemma before_guard_no_mutation c nodegroup state pods allNodes :
  mutations (before_guard c nodegroup state pods allNodes) = [].
Proof. unfold mutations. quiet_before_guard. Qed.

Lemma before_guard_no_aggregation c nodegroup state pods allNodes :
  List.filter is_aggregation (before_guard c nodegroup state pods allNodes) = [].
Proof. quiet_before_guard. Qed.

Lemma before_guard_no_percent c nodegroup state pods allNodes :
  List.filter is_percent_signal (before_guard c nodegroup state pods allNodes) = [].
Proof. quiet_before_guard. Qed.

Lemma before_guard_no_warning c nodegroup state pods allNodes :
  List.filter is_warning (before_guard c nodegroup state pods allNodes) = [].
Proof. quiet_before_guard. Qed.

Lemma bounds_warning_is_warning nodegroup state allNodes :
  is_warning (bounds_warning nodegroup state allNodes) = true.
Proof.
  unfold bounds_warning.
  destruct (GoInt.len allNodes =? 0); [reflexivity|].
  by destruct (GoInt.len allNodes <? MinNodes (NodeGroupState_Opts state)).
Qed.

(** *** The policy switch *)

Lemma policySwitch_cases (opts : NodeGroupOptions) (usage : Z) :
  exists b, selects opts usage b /\ policySwitch opts usage = branch_delta opts b.
Proof.
  unfold policySwitch.
  destruct (usage <? TaintLowerCapacityThreshholdPercent opts) eqn:Ha.
  { exists FastDown. split; [constructor; lia|reflexivity]. }
  destruct (usage <? TaintUpperCapacityThreshholdPercent opts) eqn:Hb.
  { exists SlowDown. split; [constructor; lia|reflexivity]. }
  destruct (usage >? ScaleUpThreshholdPercent opts) eqn:Hc.
  { exists Up. split; [constructor; lia|reflexivity]. }
  exists Hold. split; [constructor; lia|reflexivity].
Qed.

Lemma selects_functional (opts : NodeGroupOptions) (usage : Z) (b b' : Branch) :
  selects opts usage b -> selects opts usage b' -> b' = b.
Proof. intros Hb Hb'. destruct Hb, Hb'; first [reflexivity | lia]. Qed.

Lemma selects_policySwitch (opts : NodeGroupOptions) (usage : Z) (b : Branch) :
  selects opts usage b -> policySwitch opts usage = branch_delta opts b.
Proof.
  intros Hb. destruct (policySwitch_cases opts usage) as (b' & Hb' & ->).
  by rewrite (selects_functional _ _ _ _ Hb Hb').
Qed.

(** C1.  For every configuration and every integer usage the switch takes
    exactly one of the four branches, the first whose test holds in the
    order a, b, c, d, and sets the delta of that branch: minus the fast
    removal rate, minus the slow removal rate, the fast revival rate, or
    zero.  Nothing is assumed on the order of the three thresholds, and the
    branch is a function of the configuration and the usage. *)
Theorem policy_first_match_total_exclusive (opts : NodeGroupOptions) (usage : Z) :
  exists b,
    selects opts usage b /\
    policySwitch opts usage = branch_delta opts b /\
    forall b', selects opts usage b' -> b' = b.
Proof.
  destruct (policySwitch_cases opts usage) as (b & Hb & Hd).
  exists b. repeat split; [done..|].
  intros b' Hb'. by apply (selects_functional opts usage).
Qed.

(** *** The bounds guard *)

(** C2.  In a cycle whose two listings succeed, a node count that is zero,
    below the minimum or above the maximum makes the engine log one warning
    and return: the group state is as before, and the trace holds no
    aggregation call, no percentage signal and no call to a mutation
    operation. *)
Theorem bounds_guard_aborts c nodegroup state pods allNodes :
  listed state pods allNodes ->
  out_of_bounds state allNodes ->
  exists warning,
    let t := before_guard c nodegroup state pods allNodes ++ [warning] in
    scaleNodeGroup c nodegroup state = (None, state, t) /\
    List.filter is_warning t = [warning] /\
    List.filter is_aggregation t = [] /\
    List.filter is_percent_signal t = [] /\
    mutations t = [].
Proof.
  intros Hl Hout. exists (bounds_warning nodegroup state allNodes). cbv zeta.
  split; [by apply cycle_out_of_bounds|].
  pose proof (bounds_warning_is_warning nodegroup state allNodes) as Hw.
  unfold mutations. rewrite !List.filter_app.
  rewrite before_guard_no_warning, before_guard_no_aggregation,
    before_guard_no_percent.
  fold (mutations (before_guard c nodegroup state pods allNodes)).
  rewrite before_guard_no_mutation. simpl. rewrite Hw.
  destruct (bounds_warning nodegroup state allNodes) as [[] ? ?| |]; try discriminate.
  by repeat split.
Qed.

(** *** The percentage computation *)

(** C3.  In a cycle that gets as far as the percentage computation,
    [calcPercentUsage] returns an error exactly when the CPU capacity or
    the memory capacity is zero milli-units.  On that error, the
    division-by-zero error, the cycle logs it and returns without calling a
    mutation operation, the group state as before; without it both
    percentages are returned. *)
Theorem percent_fails_exactly_on_zero_capacity c nodegroup state pods allNodes
    memRequest cpuRequest memCapacity cpuCapacity :
  reaches_percent c state pods allNodes memRequest cpuRequest memCapacity cpuCapacity ->
  let '(cpuPercent, memPercent, err) :=
    calcPercentUsage cpuRequest memRequest cpuCapacity memCapacity in
  (err <> None <-> MilliValue cpuCapacity = 0 \/ MilliValue memCapacity = 0) /\
  (err <> None ->
     err = Some "Cannot divide by zero in percent calculation"%string /\
     exists t,
       scaleNodeGroup c nodegroup state = (None, state, t) /\
       last t = Some (EvLog ErrorLevel None
                        [AStr "Failed to calculate percentages: %v"; AErr err]) /\
       mutations t = []) /\
  (err = None ->
     cpuPercent = percent_of (MilliValue cpuRequest) (MilliValue cpuCapacity) /\
     memPercent = percent_of (MilliValue memRequest) (MilliValue memCapacity)).
Proof.
  intros Hp.
  assert (MilliValue cpuCapacity = 0 \/ MilliValue memCapacity = 0 \/
          (MilliValue cpuCapacity <> 0 /\ MilliValue memCapacity <> 0))
    as [Hz|[Hz|[Hc Hm]]] by lia.
  1,2: rewrite calcPercentUsage_zero by tauto.
  1,2: split; [split; [tauto|discriminate]|]; split; [|discriminate].
  1,2: intros _; split; [reflexivity|]; eexists; split;
       [apply (cycle_percent_fail _ _ _ _ _ _ _ _ _ Hp); tauto|].
  1,2: split; [by rewrite !last_app|].
  1,2: unfold mutations; rewrite !List.filter_app;
       fold (mutations (before_guard c nodegroup state pods allNodes));
       by rewrite before_guard_no_mutation.
  rewrite calcPercentUsage_percent_of by done.
  split; [split; [done|lia]|]. split; [done|]. done.
Qed.

(** *** The dispatch *)

Lemma error_line_filter (p : Event Node Pod -> bool) nodegroup err :
  (forall a, p (EvLog ErrorLevel (Some nodegroup) a) = false) ->
  List.filter p (error_line nodegroup err) = [].
Proof. intros Hp. destruct err; simpl; [by rewrite Hp|done]. Qed.

Lemma dispatch_mutations c nodegroup state pods allNodes usage delta :
  mutations (snd (dispatch c nodegroup state pods allNodes usage delta))
  = [dispatch_call c state pods allNodes usage delta].
Proof.
  unfold dispatch, dispatch_call, mutations.
  destruct (delta <? 0).
  { destruct (ScaleDown c _) as [[affected err] state']. simpl.
    rewrite List.filter_app, error_line_filter by done. reflexivity. }
  destruct (delta >? 0).
  { destruct (ScaleUp c _) as [[affected err] state']. simpl.
    rewrite List.filter_app, error_line_filter by done. reflexivity. }
  destruct (TryRemoveTaintedNodes c _) as [[removed err] state']. simpl.
  rewrite List.filter_app, error_line_filter by done. reflexivity.
Qed.

Lemma dispatch_no_aggregation c nodegroup state pods allNodes usage delta :
  List.filter is_aggregation (snd (dispatch c nodegroup state pods allNodes usage delta)) = [].
Proof.
  unfold dispatch.
  destruct (delta <? 0).
  { destruct (ScaleDown c _) as [[affected err] state']. simpl.
    rewrite List.filter_app, error_line_filter by done. reflexivity. }
  destruct (delta >? 0).
  { destruct (ScaleUp c _) as [[affected err] state']. simpl.
    rewrite List.filter_app, error_line_filter by done. reflexivity. }
  destruct (TryRemoveTaintedNodes c _) as [[removed err] state']. simpl.
  rewrite List.filter_app, error_line_filter by done. reflexivity.
Qed.

Lemma dispatch_no_percent c nodegroup state pods allNodes usage delta :
  List.filter is_percent_signal (snd (dispatch c nodegroup state pods allNodes usage delta)) = [].
Proof.
  unfold dispatch.
  destruct (delta <? 0).
  { destruct (ScaleDown c _) as [[affected err] state']. simpl.
    rewrite List.filter_app, error_line_filter by done. reflexivity. }
  destruct (delta >? 0).
  { destruct (ScaleUp c _) as [[affected err] state']. simpl.
    rewrite List.filter_app, error_line_filter by done. reflexivity. }
  destruct (TryRemoveTaintedNodes c _) as [[removed err] state']. simpl.
  rewrite List.filter_app, error_line_filter by done. reflexivity.
Qed.

(** The mutation calls of a cycle that gets to the dispatch: the one the
    dispatch makes. *)
Lemma cycle_dispatch_mutations c nodegroup state pods allNodes
    memRequest cpuRequest memCapacity cpuCapacity :
  reaches_dispatch c state pods allNodes memRequest cpuRequest memCapacity cpuCapacity ->
  mutations (snd (scaleNodeGroup c nodegroup state))
  = [dispatch_call c state pods allNodes
       (usage_of memRequest cpuRequest memCapacity cpuCapacity)
       (policySwitch (NodeGroupState_Opts state)
          (usage_of memRequest cpuRequest memCapacity cpuCapacity))].
Proof.
  intros Hd. rewrite (cycle_dispatch _ nodegroup _ _ _ _ _ _ _ Hd). cbn [snd].
  unfold mutations. rewrite !List.filter_app.
  fold (mutations (before_guard c nodegroup state pods allNodes)).
  rewrite before_guard_no_mutation.
  match goal with |- context [List.filter is_mutation (snd ?d)] =>
    fold (mutations (snd d)) end.
  rewrite dispatch_mutations. reflexivity.
Qed.

(** C4, as amended.  A cycle that gets to the dispatch calls exactly one
    mutation operation, by the sign of the delta: ScaleDown with
    [nodesDelta] the Go negation of a negative delta, which is its absolute
    value for every delta but the minimum integer; ScaleUp with
    [nodesDelta] a positive delta; the reaper alone for a zero delta.  The
    delta is zero for every usage from the upper taint threshold to the
    scale-up threshold, both included, that is not below the lower taint
    threshold.  With positive rates the [nodesDelta] handed over is the
    rate of the branch taken as configured, whatever the bounds and the
    node count. *)
Theorem dispatch_by_sign c nodegroup state pods allNodes
    memRequest cpuRequest memCapacity cpuCapacity :
  reaches_dispatch c state pods allNodes memRequest cpuRequest memCapacity cpuCapacity ->
  let opts := NodeGroupState_Opts state in
  let usage := usage_of memRequest cpuRequest memCapacity cpuCapacity in
  let delta := policySwitch opts usage in
  let call_with := dispatch_opts c state pods allNodes usage in
  let calls := mutations (snd (scaleNodeGroup c nodegroup state)) in
  (delta < 0 ->
     calls = [EvCall (Call_ScaleDown (call_with (GoInt.neg delta)))] /\
     (GoInt.min_int < delta -> GoInt.neg delta = Z.abs delta)) /\
  (delta > 0 -> calls = [EvCall (Call_ScaleUp (call_with delta))]) /\
  (delta = 0 -> calls = [EvCall (Call_TryRemoveTaintedNodes (call_with 0))]) /\
  (TaintLowerCapacityThreshholdPercent opts <= usage ->
   TaintUpperCapacityThreshholdPercent opts <= usage <= ScaleUpThreshholdPercent opts ->
   delta = 0) /\
  (positive_rates opts ->
   forall b, selects opts usage b ->
     calls = [branch_call b (call_with (branch_rate opts b))]).
Proof.
  intros Hd opts usage delta call_with calls.
  pose proof (cycle_dispatch_mutations c nodegroup _ _ _ _ _ _ _ Hd) as Hcalls.
  change (calls = [dispatch_call c state pods allNodes usage delta]) in Hcalls.
  unfold dispatch_call in Hcalls. fold call_with in Hcalls.
  split; [|split; [|split; [|split]]].
  - intros Hneg. split.
    + by rewrite Hcalls, (proj2 (Z.ltb_lt _ _) Hneg).
    + intros Hmin. rewrite neg_opp; [lia|]. unfold GoInt.max_int. lia.
  - intros Hpos. rewrite Hcalls.
    rewrite (proj2 (Z.ltb_ge _ _)) by lia. by rewrite (proj2 (Z.gtb_gt _ _)) by lia.
  - intros Hzero. rewrite Hcalls, Hzero. reflexivity.
  - intros Hlow Hhold. subst delta. unfold policySwitch.
    rewrite (proj2 (Z.ltb_ge _ _)) by lia. rewrite (proj2 (Z.ltb_ge _ _)) by lia.
    destruct (usage >? ScaleUpThreshholdPercent opts) eqn:Hup; [lia|reflexivity].
  - intros (Hslow & Hfast & Hup) b Hb. rewrite Hcalls. subst delta.
    rewrite (selects_policySwitch _ _ _ Hb).
    unfold GoInt.max_int in *.
    destruct b; simpl.
    + rewrite neg_involutive by (unfold GoInt.in_range, GoInt.min_int, GoInt.max_int; lia).
      rewrite neg_opp by (unfold GoInt.min_int, GoInt.max_int; lia).
      by rewrite (proj2 (Z.ltb_lt _ _)) by lia.
    + rewrite neg_involutive by (unfold GoInt.in_range, GoInt.min_int, GoInt.max_int; lia).
      rewrite neg_opp by (unfold GoInt.min_int, GoInt.max_int; lia).
      by rewrite (proj2 (Z.ltb_lt _ _)) by lia.
    + rewrite (proj2 (Z.ltb_ge _ _)) by lia. by rewrite (proj2 (Z.gtb_gt _ _)) by lia.
    + reflexivity.
Qed.

(** *** Early returns *)

Lemma mutations_app (t1 t2 : list (Event Node Pod)) :
  mutations (t1 ++ t2) = mutations t1 ++ mutations t2.
Proof. apply List.filter_app. Qed.

(** Closes a goal [mutations t = []] for the trace of an early return. *)
Ltac no_mutation :=
  rewrite ?mutations_app, before_guard_no_mutation; reflexivity.

Lemma abort_returns c nodegroup state :
  abort_cause c state ->
  exists t, scaleNodeGroup c nodegroup state = (None, state, t) /\ mutations t = [].
Proof.
  intros [pods e Hp|pods allNodes e Hp Hn|pods allNodes Hl Hout
         |pods allNodes mr cr e Ha Hreq|pods allNodes mr cr mc cc e Ha Hreq Hcap
         |pods allNodes mr cr mc cc Hp Hz]; eexists; split.
  - by apply (cycle_pods_fail c nodegroup state pods e).
  - reflexivity.
  - by apply (cycle_nodes_fail c nodegroup state pods allNodes e).
  - reflexivity.
  - by apply (cycle_out_of_bounds c nodegroup state pods allNodes).
  - rewrite mutations_app, before_guard_no_mutation. simpl.
    pose proof (bounds_warning_is_warning nodegroup state allNodes) as Hw.
    by destruct (bounds_warning nodegroup state allNodes) as [[] ? ?| |].
  - by apply (cycle_requests_fail c nodegroup state pods allNodes mr cr e).
  - no_mutation.
  - by apply (cycle_capacity_fail c nodegroup state pods allNodes mr cr mc cc e).
  - no_mutation.
  - by apply (cycle_percent_fail c nodegroup state pods allNodes mr cr mc cc).
  - no_mutation.
Qed.

(** Once both listings have succeeded the trace starts with the calls of
    the listing and the partition and the seven count signals. *)
Lemma cycle_listed c nodegroup state pods allNodes :
  listed state pods allNodes ->
  exists r state' rest,
    scaleNodeGroup c nodegroup state
    = (r, state', before_guard c nodegroup state pods allNodes ++ rest).
Proof.
  intros [Hpods Hnodes].
  assert (forall pods' allNodes', listed state pods' allNodes' ->
            pods' = pods /\ allNodes' = allNodes) as Hsame.
  { intros pods' allNodes' [Hp' Hn']. split; congruence. }
  destruct (abort_or_dispatch c state)
    as [[pods' e Hp|pods' allNodes' e Hp Hn|pods' allNodes' Hl Hout
        |pods' allNodes' mr cr e [Hl Hin] Hreq
        |pods' allNodes' mr cr mc cc e [Hl Hin] Hreq Hcap
        |pods' allNodes' mr cr mc cc [[Hl Hin] Hagg] Hz]
       |(pods' & allNodes' & mr & cr & mc & cc & Hd)].
  - congruence.
  - congruence.
  - destruct (Hsame _ _ Hl) as [-> ->]. do 3 eexists. by apply cycle_out_of_bounds.
  - destruct (Hsame _ _ Hl) as [-> ->]. do 3 eexists.
    by apply (cycle_requests_fail _ _ _ _ _ mr cr e).
  - destruct (Hsame _ _ Hl) as [-> ->]. do 3 eexists.
    by apply (cycle_capacity_fail _ _ _ _ _ mr cr mc cc e).
  - destruct (Hsame _ _ Hl) as [-> ->]. do 3 eexists.
    by apply (cycle_percent_fail _ _ _ _ _ mr cr mc cc).
  - destruct (Hsame _ _ (proj1 (proj1 (proj1 Hd)))) as [-> ->]. do 3 eexists.
    by apply (cycle_dispatch _ _ _ _ _ mr cr mc cc).
Qed.

(** *** The aggregation *)

Lemma filter_aggregation_after_guard c nodegroup state pods allNodes
    (rest : list (Event Node Pod)) :
  List.filter is_aggregation (before_guard c nodegroup state pods allNodes ++ rest)
  = List.filter is_aggregation rest.
Proof. by rewrite List.filter_app, before_guard_no_aggregation. Qed.

(** C7.  In a cycle that gets as far as the aggregation, the requests are
    totalled over the pod list as listed and, when that succeeds, the
    capacity over the untainted nodes, the listed nodes that are not
    tainted; no other aggregation call is made.  When either aggregation
    fails the cycle logs the error and returns, the group state as before
    and no mutation operation called. *)
Theorem aggregation_inputs c nodegroup state pods allNodes :
  reaches_aggregation state pods allNodes ->
  let result := scaleNodeGroup c nodegroup state in
  let t := snd result in
  let '(_, _, err1) := CalculatePodsRequestsTotal pods in
  let '(_, _, err2) := CalculateNodesCapacityTotal (untaintedOf c state allNodes) in
  Pods_List (Lister state) = (pods, None) /\
  (forall node,
     node ∈ untaintedOf c state allNodes <-> node ∈ allNodes /\ ~ tainted c state node) /\
  (err1 = None ->
     List.filter is_aggregation t
     = [EvCall (Call_CalculatePodsRequestsTotal pods);
        EvCall (Call_CalculateNodesCapacityTotal (untaintedOf c state allNodes))]) /\
  (err1 <> None ->
     List.filter is_aggregation t = [EvCall (Call_CalculatePodsRequestsTotal pods)] /\
     result = (None, state, t) /\
     last t = Some (EvLog ErrorLevel None [AStr "Failed to calculate requests: %v"; AErr err1]) /\
     mutations t = []) /\
  (err1 = None -> err2 <> None ->
     result = (None, state, t) /\
     last t = Some (EvLog ErrorLevel None [AStr "Failed to calculate capacity: %v"; AErr err2]) /\
     mutations t = []).
Proof.
  intros Ha result t. pose proof Ha as [[Hpods Hnodes] Hin].
  destruct (CalculatePodsRequestsTotal pods) as [[mr cr] err1] eqn:Hreq.
  destruct (CalculateNodesCapacityTotal (untaintedOf c state allNodes))
    as [[mc cc] err2] eqn:Hcap.
  split; [exact Hpods|].
  split. { intros node. unfold untaintedOf. rewrite list_elem_of_filter. tauto. }
  destruct err1 as [e1|].
  { pose proof (cycle_requests_fail c nodegroup state pods allNodes mr cr e1 Ha Hreq) as Hrun.
    subst t result. rewrite Hrun. cbn [snd].
    split; [discriminate|]. split; [|intros; discriminate]. intros _.
    split; [by rewrite filter_aggregation_after_guard|].
    split; [reflexivity|].
    split; [|no_mutation].
    by rewrite !last_app. }
  split.
  { intros _. destruct err2 as [e2|].
    { pose proof (cycle_capacity_fail c nodegroup state pods allNodes mr cr mc cc e2
                    Ha Hreq Hcap) as Hrun.
      subst t result. rewrite Hrun. cbn [snd].
      by rewrite filter_aggregation_after_guard. }
    assert (reaches_percent c state pods allNodes mr cr mc cc) as Hp by done.
    assert (MilliValue cc = 0 \/ MilliValue mc = 0 \/
            (MilliValue cc <> 0 /\ MilliValue mc <> 0)) as [Hz|[Hz|[Hc Hm]]] by lia.
    1,2: pose proof (cycle_percent_fail c nodegroup state pods allNodes mr cr mc cc Hp) as Hrun;
         subst t result; rewrite Hrun by tauto; cbn [snd];
         by rewrite filter_aggregation_after_guard.
    assert (reaches_dispatch c state pods allNodes mr cr mc cc) as Hd by done.
    pose proof (cycle_dispatch c nodegroup state pods allNodes mr cr mc cc Hd) as Hrun.
    cbv zeta in Hrun. subst t result. rewrite Hrun. cbn [snd].
    rewrite filter_aggregation_after_guard, !List.filter_app.
    by rewrite dispatch_no_aggregation. }
  split; [done|]. intros _ Herr. destruct err2 as [e2|]; [|done].
  pose proof (cycle_capacity_fail c nodegroup state pods allNodes mr cr mc cc e2
                Ha Hreq Hcap) as Hrun.
  subst t result. rewrite Hrun. cbn [snd].
  split; [reflexivity|]. split; [|no_mutation].
  by rewrite !last_app.
Qed.

Lemma dispatch_call_usage c state pods allNodes usage delta :
  exists opts,
    mutation_opts (dispatch_call c state pods allNodes usage delta) = Some opts /\
    clusterUsagePercent opts = usage.
Proof.
  unfold dispatch_call.
  destruct (delta <? 0); [|destruct (delta >? 0)]; eexists; split; reflexivity.
Qed.

(** C6.  In a cycle that gets past the percentage computation, so that
    both capacities are nonzero, the CPU percentage is 100 times the ratio
    of the CPU request to the CPU capacity, both in milli-units, and the
    memory percentage likewise, in binary64 arithmetic.  The usage handed
    to the policy and to the mutation operation is Go's conversion to [int]
    of [math.Max] of the two: the maximum is one of the two percentages and
    neither is above it, and the conversion of a finite maximum whose
    integer part fits an [int] is that integer part with its sign, the
    fraction dropped. *)
Theorem usage_is_truncated_max c nodegroup state pods allNodes
    memRequest cpuRequest memCapacity cpuCapacity :
  reaches_dispatch c state pods allNodes memRequest cpuRequest memCapacity cpuCapacity ->
  let cpuPercent := percent_of (MilliValue cpuRequest) (MilliValue cpuCapacity) in
  let memPercent := percent_of (MilliValue memRequest) (MilliValue memCapacity) in
  let greater := Max cpuPercent memPercent in
  let usage := to_int greater in
  calcPercentUsage cpuRequest memRequest cpuCapacity memCapacity
  = (cpuPercent, memPercent, None) /\
  (exists call opts,
     mutations (snd (scaleNodeGroup c nodegroup state)) = [call] /\
     call = dispatch_call c state pods allNodes usage
              (policySwitch (NodeGroupState_Opts state) usage) /\
     mutation_opts call = Some opts /\
     clusterUsagePercent opts = usage) /\
  (greater = cpuPercent \/ greater = memPercent) /\
  ltb greater cpuPercent = false /\
  ltb greater memPercent = false /\
  (forall s m e,
     greater = S754_finite s m e ->
     magnitude m e <= GoInt.max_int ->
     exists n, integer_part m e n /\ usage = if s then - n else n).
Proof.
  intros Hd cpuPercent memPercent greater usage.
  split; [apply calcPercentUsage_percent_of; apply Hd|].
  split.
  { destruct (dispatch_call_usage c state pods allNodes usage
                (policySwitch (NodeGroupState_Opts state) usage)) as (opts & Ho & Hu).
    eexists; exists opts. split; [|split; [reflexivity|by split]].
    apply (cycle_dispatch_mutations c nodegroup _ _ _ _ _ _ _ Hd). }
  split; [apply Max_cases|].
  split; [apply Max_not_below|]. split; [apply Max_not_below|].
  intros s m e Hg Hfit. exists (magnitude m e).
  split; [apply magnitude_integer_part|].
  subst usage. rewrite Hg. by apply to_int_finite.
Qed.

(** *** The observability signals *)

Lemma filter_percent_after_guard c nodegroup state pods allNodes
    (rest : list (Event Node Pod)) :
  List.filter is_percent_signal (before_guard c nodegroup state pods allNodes ++ rest)
  = List.filter is_percent_signal rest.
Proof. by rewrite List.filter_app, before_guard_no_percent. Qed.

(** The percentage signals of a cycle that gets to the dispatch. *)
Lemma cycle_dispatch_percent_signals c nodegroup state pods allNodes
    memRequest cpuRequest memCapacity cpuCapacity :
  reaches_dispatch c state pods allNodes memRequest cpuRequest memCapacity cpuCapacity ->
  List.filter is_percent_signal (snd (scaleNodeGroup c nodegroup state))
  = percent_signals nodegroup
      (percent_of (MilliValue cpuRequest) (MilliValue cpuCapacity))
      (percent_of (MilliValue memRequest) (MilliValue memCapacity)).
Proof.
  intros Hd. rewrite (cycle_dispatch _ nodegroup _ _ _ _ _ _ _ Hd). cbn [snd].
  rewrite filter_percent_after_guard, !List.filter_app.
  rewrite dispatch_no_percent. reflexivity.
Qed.

(** C9.  In a cycle whose two listings succeed, the three log lines and
    the four gauges on the node and pod counts are emitted before the
    bounds guard: they follow the calls of the listing and the partition,
    no warning comes before them, and a cycle that returns on a zero or
    out-of-bounds count has emitted them, its warning last.  The log line
    and the two gauges on the percentages are emitted exactly when the
    cycle has got to the percentage computation and that has succeeded,
    with the percentages it returned. *)
Theorem count_signals_precede_guard c nodegroup state pods allNodes :
  listed state pods allNodes ->
  exists r state' rest,
    let counts :=
      count_signals nodegroup pods allNodes
        (untaintedOf c state allNodes) (taintedOf c state allNodes) in
    let calls :=
      [EvCall Call_Pods_List; EvCall Call_Nodes_List] ++ taint_queries c state allNodes in
    let t := (calls ++ counts) ++ rest in
    scaleNodeGroup c nodegroup state = (r, state', t) /\
    List.filter is_warning (calls ++ counts) = [] /\
    (out_of_bounds state allNodes ->
       r = None /\ rest = [bounds_warning nodegroup state allNodes]) /\
    (forall memRequest cpuRequest memCapacity cpuCapacity cpuPercent memPercent,
       reaches_percent c state pods allNodes memRequest cpuRequest memCapacity cpuCapacity ->
       calcPercentUsage cpuRequest memRequest cpuCapacity memCapacity
       = (cpuPercent, memPercent, None) ->
       List.filter is_percent_signal t = percent_signals nodegroup cpuPercent memPercent) /\
    (List.filter is_percent_signal t <> [] ->
       exists memRequest cpuRequest memCapacity cpuCapacity cpuPercent memPercent,
         reaches_percent c state pods allNodes memRequest cpuRequest memCapacity cpuCapacity /\
         calcPercentUsage cpuRequest memRequest cpuCapacity memCapacity
         = (cpuPercent, memPercent, None)).
Proof.
  intros Hl. destruct (cycle_listed c nodegroup state pods allNodes Hl)
    as (r & state' & rest & Hrun).
  exists r, state', rest. cbv zeta.
  assert (([EvCall Call_Pods_List; EvCall Call_Nodes_List] ++ taint_queries c state allNodes)
          ++ count_signals nodegroup pods allNodes
               (untaintedOf c state allNodes) (taintedOf c state allNodes)
          = before_guard c nodegroup state pods allNodes) as ->.
  { unfold before_guard. by rewrite <- app_assoc. }
  split; [exact Hrun|]. split; [apply before_guard_no_warning|].
  split.
  { intros Hout. rewrite (cycle_out_of_bounds _ _ _ _ _ Hl Hout) in Hrun.
    injection Hrun as <- _ Ht. split; [reflexivity|]. by apply app_inv_head in Ht. }
  assert (snd (scaleNodeGroup c nodegroup state)
          = before_guard c nodegroup state pods allNodes ++ rest) as Ht
    by (by rewrite Hrun).
  rewrite <- Ht. clear Hrun Ht.
  split.
  { intros mr cr mc cc cpuPercent memPercent Hp Hcalc.
    assert (MilliValue cc = 0 \/ MilliValue mc = 0 \/
            (MilliValue cc <> 0 /\ MilliValue mc <> 0)) as [Hz|[Hz|[Hc Hm]]] by lia.
    1,2: rewrite calcPercentUsage_zero in Hcalc by tauto; discriminate.
    rewrite calcPercentUsage_percent_of in Hcalc by done.
    injection Hcalc as <- <-.
    by apply (cycle_dispatch_percent_signals c nodegroup state pods allNodes). }
  intros Hne.
  assert (forall pods' allNodes', listed state pods' allNodes' ->
            pods' = pods /\ allNodes' = allNodes) as Hsame.
  { destruct Hl as [Hp Hn]. intros pods' allNodes' [Hp' Hn']. split; congruence. }
  destruct (abort_or_dispatch c state)
    as [[pods' e Hp|pods' allNodes' e Hp Hn|pods' allNodes' Hl' Hout
        |pods' allNodes' mr cr e Ha Hreq
        |pods' allNodes' mr cr mc cc e Ha Hreq Hcap
        |pods' allNodes' mr cr mc cc Hp Hz]
       |(pods' & allNodes' & mr & cr & mc & cc & Hd)].
  - destruct Hl. congruence.
  - destruct Hl. congruence.
  - destruct (Hsame _ _ Hl') as [-> ->].
    rewrite (cycle_out_of_bounds _ _ _ _ _ Hl' Hout) in Hne. cbn [snd] in Hne.
    rewrite filter_percent_after_guard in Hne. simpl in Hne.
    pose proof (bounds_warning_is_warning nodegroup state allNodes) as Hw.
    by destruct (bounds_warning nodegroup state allNodes) as [[] ? ?| |].
  - destruct (Hsame _ _ (proj1 Ha)) as [-> ->].
    rewrite (cycle_requests_fail _ _ _ _ _ _ _ _ Ha Hreq) in Hne. cbn [snd] in Hne.
    by rewrite filter_percent_after_guard in Hne.
  - destruct (Hsame _ _ (proj1 Ha)) as [-> ->].
    rewrite (cycle_capacity_fail _ _ _ _ _ _ _ _ _ _ Ha Hreq Hcap) in Hne. cbn [snd] in Hne.
    by rewrite filter_percent_after_guard in Hne.
  - destruct (Hsame _ _ (proj1 (proj1 Hp))) as [-> ->].
    rewrite (cycle_percent_fail _ _ _ _ _ _ _ _ _ Hp Hz) in Hne. cbn [snd] in Hne.
    by rewrite filter_percent_after_guard in Hne.
  - destruct (Hsame _ _ (proj1 (proj1 (proj1 Hd)))) as [-> ->].
    exists mr, cr, mc, cc. do 2 eexists. split; [exact (proj1 Hd)|].
    apply calcPercentUsage_percent_of; apply Hd.
Qed.

(** *** The group state *)

Lemma dispatch_state c nodegroup state pods allNodes usage delta :
  fst (dispatch c nodegroup state pods allNodes usage delta)
  = if delta <? 0 then
      snd (ScaleDown c (dispatch_opts c state pods allNodes usage (GoInt.neg delta)))
    else if delta >? 0 then
      snd (ScaleUp c (dispatch_opts c state pods allNodes usage delta))
    else
      snd (TryRemoveTaintedNodes c (dispatch_opts c state pods allNodes usage 0)).
Proof.
  unfold dispatch.
  destruct (delta <? 0).
  { by destruct (ScaleDown c _) as [[affected err] state']. }
  destruct (delta >? 0).
  { by destruct (ScaleUp c _) as [[affected err] state']. }
  by destruct (TryRemoveTaintedNodes c _) as [[removed err] state'].
Qed.

(** C10.  The engine does not write the group state itself.  A cycle that
    has a cause to return before the dispatch (a listing failure, a bounds
    anomaly, an aggregation or division failure) returns with the state
    exactly as it was and no mutation operation called.  In every cycle
    the state at the end is the state at the start, or it is the state one
    mutation operation, the only one called and called on the state at the
    start, has left. *)
Theorem engine_never_writes_state c nodegroup state :
  (abort_cause c state ->
     exists t, scaleNodeGroup c nodegroup state = (None, state, t) /\ mutations t = []) /\
  (forall r state' t,
     scaleNodeGroup c nodegroup state = (r, state', t) ->
     (state' = state /\ mutations t = []) \/
     exists opts,
       nodeGroup opts = state /\
       ((mutations t = [EvCall (Call_ScaleDown opts)] /\
         state' = snd (ScaleDown c opts)) \/
        (mutations t = [EvCall (Call_ScaleUp opts)] /\
         state' = snd (ScaleUp c opts)) \/
        (mutations t = [EvCall (Call_TryRemoveTaintedNodes opts)] /\
         state' = snd (TryRemoveTaintedNodes c opts)))).
Proof.
  split; [apply abort_returns|].
  intros r state' t Hrun.
  destruct (abort_or_dispatch c state)
    as [Habort|(pods & allNodes & mr & cr & mc & cc & Hd)].
  { left. destruct (abort_returns c nodegroup state Habort) as (t' & Hrun' & Hm).
    rewrite Hrun in Hrun'. by injection Hrun' as _ -> ->. }
  right.
  pose proof (cycle_dispatch_mutations c nodegroup _ _ _ _ _ _ _ Hd) as Hcalls.
  pose proof (cycle_dispatch c nodegroup _ _ _ _ _ _ _ Hd) as Hrun'.
  cbv zeta in Hrun'. rewrite Hrun in Hrun', Hcalls. cbn [snd] in Hcalls.
  injection Hrun' as _ Hstate _. rewrite dispatch_state in Hstate.
  unfold dispatch_call in Hcalls.
  destruct (_ <? 0); [|destruct (_ >? 0)]; eexists; (split; [|eauto]); reflexivity.
Qed.

(** *** The sweep *)

(** One turn of the loop of [RunOnce] on a group the map holds. *)
Lemma sweepGroup_run nodegroup c state :
  nodeGroups c !! nodegroup = Some state ->
  sweepGroup nodegroup tt c
  = (Some tt,
     {| Controller_Opts := Controller_Opts c;
        nodeGroups := <[nodegroup := fst (run_cycle c nodegroup state)]> (nodeGroups c) |},
     visit_events {| visit_nodegroup := nodegroup; visit_controller := c;
                     visit_state := state |}).
Proof.
  intros Hk. unfold sweepGroup, bind, get, emit, call_scaleNodeGroup, visit_events.
  cbn beta iota. rewrite Hk. cbn [visit_controller visit_nodegroup visit_state].
  by destruct (run_cycle c nodegroup state) as [state' t].
Qed.

Lemma sweep_loop (order : list string) : forall c,
  NoDup order ->
  (forall k, k ∈ order -> is_Some (nodeGroups c !! k)) ->
  exists c' visits,
    range order sweepGroup tt c = (Some tt, c', concat (visit_events <$> visits)) /\
    visit_nodegroup <$> visits = order /\
    Controller_Opts c' = Controller_Opts c /\
    Forall (visit_of_sweep c c') visits /\
    (forall k, k ∉ order -> nodeGroups c' !! k = nodeGroups c !! k).
Proof.
  induction order as [|k order IH]; intros c Hnd Hkeys.
  { exists c, []. by repeat split. }
  apply NoDup_cons in Hnd as [Hk Hnd].
  destruct (Hkeys k) as [state Hstate]; [left|].
  set (c1 := {| Controller_Opts := Controller_Opts c;
                nodeGroups := <[k := fst (run_cycle c k state)]> (nodeGroups c) |}).
  assert (forall k', k' ∈ order -> nodeGroups c1 !! k' = nodeGroups c !! k') as Hother.
  { intros k' Hk'. simpl. apply lookup_insert_ne. by intros ->. }
  destruct (IH c1 Hnd) as (c' & visits & Hrun & Hmap & Hopts & Hvisits & Hrest).
  { intros k' Hk'. rewrite (Hother k' Hk'). apply Hkeys. by right. }
  exists c', ({| visit_nodegroup := k; visit_controller := c; visit_state := state |} :: visits).
  split; [|split; [|split; [|split]]].
  - cbn [range]. unfold bind at 1. rewrite (sweepGroup_run k c state Hstate).
    fold c1. rewrite Hrun. reflexivity.
  - rewrite fmap_cons. by rewrite Hmap.
  - by rewrite Hopts.
  - apply Forall_cons. split.
    + repeat split; [done..|]. simpl.
      rewrite (Hrest k Hk). simpl. apply lookup_insert_eq.
    + apply Forall_forall. intros v Hv.
      destruct (proj1 (Forall_forall _ _) Hvisits v Hv) as (Hv1 & Hv2 & Hv3).
      assert (visit_nodegroup v ∈ order) as Hin.
      { rewrite <- Hmap. apply list_elem_of_fmap. by exists v. }
      repeat split; [|done..]. by rewrite <- (Hother _ Hin).
  - intros k' Hk'. apply not_elem_of_cons in Hk' as [Hne Hk'].
    rewrite (Hrest k' Hk'). simpl. by apply lookup_insert_ne.
Qed.

(** C8.  One sweep runs the engine once for every group of the map, one
    after the other in the order of the iteration: the trace of the sweep
    is, visit by visit, the start line and the events of the cycle of that
    group, then the line on the duration; the groups visited are the keys
    of the map, each once.  This holds whatever the cycles do: a cycle that
    returns early on a failure or an anomaly, or whose mutation operation
    fails, ends that visit only, the next group is visited from the state
    the map held for it before the sweep, and the sweep runs to its end. *)
Theorem sweep_visits_every_group c (order : list string) (startTime endTime : Z) :
  iteration_order c order ->
  exists c' visits,
    RunOnce order startTime endTime c
    = (Some tt, c',
       concat (visit_events <$> visits)
       ++ [EvLog DebugLevel None
             [AStr "Scaling took a total of %v"; ADuration startTime endTime]]) /\
    visit_nodegroup <$> visits = order /\
    visit_nodegroup <$> visits ≡ₚ (map_to_list (nodeGroups c)).*1 /\
    NoDup (visit_nodegroup <$> visits) /\
    length visits = size (nodeGroups c) /\
    Forall (visit_of_sweep c c') visits.
Proof.
  intros Horder. unfold iteration_order in Horder.
  assert (NoDup order) as Hnd.
  { rewrite Horder. apply NoDup_fst_map_to_list. }
  assert (forall k, k ∈ order -> is_Some (nodeGroups c !! k)) as Hkeys.
  { intros k Hk. rewrite Horder in Hk.
    apply list_elem_of_fmap in Hk as ([k' state] & -> & Hin).
    apply elem_of_map_to_list in Hin. by exists state. }
  destruct (sweep_loop order c Hnd Hkeys)
    as (c' & visits & Hrun & Hmap & Hopts & Hvisits & Hrest).
  exists c', visits.
  split; [|split; [done|split; [by rewrite Hmap|split; [by rewrite Hmap|split; [|done]]]]].
  - unfold RunOnce, bind. rewrite Hrun. reflexivity.
  - rewrite <- (length_fmap visit_nodegroup), Hmap, Horder, length_fmap.
    apply length_map_to_list.
Qed.

End Properties.


(** ** The properties on the concrete cluster *)

Import Fixture.

Section Scenarios.

Local Open Scope string_scope.
Local Open Scope list_scope.
Local Open Scope Z_scope.

(** The usage of the scenarios. *)
Example busy_usage :
  usage_of (quantity 640) (quantity 3600) (quantity 16000) (quantity 4000) = 90.
Proof. vm_compute. reflexivity. Qed.

Example misordered_usage :
  usage_of (quantity 640) (quantity 1200) (quantity 16000) (quantity 4000) = 30.
Proof. vm_compute. reflexivity. Qed.

(** Binary64 rounding shows in the usage: 29 of 100 milli-units gives a
    quotient just below 0.29, a product just below 29, and a usage of 28. *)
Example usage_29_of_100 :
  percent_of 29 100 = S754_finite false 8162774324609023 (-48) /\
  to_int (Max (percent_of 29 100) (percent_of 0 100)) = 28.
Proof. split; vm_compute; reflexivity. Qed.

(** The end-to-end scenarios of the specification: what each cycle asks
    of the mutation operations. *)
Example scenario_scale_up :
  mutations (snd (scaleNodeGroup lone "default" busy))
  = [EvCall (Call_ScaleUp (dispatch_opts lone busy (load 3600 640) five_nodes 90 3))].
Proof. vm_compute. reflexivity. Qed.

Example scenario_fast_scale_down :
  mutations (snd (scaleNodeGroup lone "default" idle))
  = [EvCall (Call_ScaleDown (dispatch_opts lone idle (load 400 640) five_nodes 10 2))].
Proof. vm_compute. reflexivity. Qed.

Example scenario_slow_scale_down :
  mutations (snd (scaleNodeGroup lone "default" cool))
  = [EvCall (Call_ScaleDown (dispatch_opts lone cool (load 1400 640) five_nodes 35 1))].
Proof. vm_compute. reflexivity. Qed.

Example scenario_hold :
  mutations (snd (scaleNodeGroup lone "default" steady))
  = [EvCall (Call_TryRemoveTaintedNodes
       (dispatch_opts lone steady (load 2400 640) five_nodes 60 0))].
Proof. vm_compute. reflexivity. Qed.

Example scenario_no_nodes :
  let t := snd (scaleNodeGroup lone "default" empty) in
  last t = Some (EvLog WarnLevel (Some "default") [AStr "no nodes remaining"]) /\
  mutations t = [] /\ List.filter is_aggregation t = [] /\
  List.filter is_percent_signal t = [].
Proof. vm_compute. repeat split; reflexivity. Qed.

Example scenario_too_many_nodes :
  let t := snd (scaleNodeGroup lone "default" crowded) in
  last t = Some (EvLog WarnLevel (Some "default")
                   [AStr "Node count of %v larger than maximum of %v"; AInt 12; AInt 10]) /\
  mutations t = [].
Proof. vm_compute. repeat split; reflexivity. Qed.

(** Under dry-run the tracker decides: the node it names is the tainted
    one, the marked node counts as untainted, and the taint predicate is
    not called. *)
Example scenario_dry_run :
  range five_nodes (filterNode lone) ([], []) rehearsal
  = (Some ([worker "n1" false; worker "n2" true; worker "n4" false; worker "n5" false],
           [worker "n3" false]),
     rehearsal, []).
Proof. vm_compute. reflexivity. Qed.

Lemma bounds_guard_aborts_witness :
  listed crowded (load 3600 640) (five_nodes ++ five_nodes ++ [worker "n11" false; worker "n12" false]) /\
  out_of_bounds crowded (five_nodes ++ five_nodes ++ [worker "n11" false; worker "n12" false]) /\
  exists t, scaleNodeGroup lone "default" crowded = (None, crowded, t) /\ mutations t = [].
Proof.
  assert (listed crowded (load 3600 640)
            (five_nodes ++ five_nodes ++ [worker "n11" false; worker "n12" false])) as Hl
    by (split; reflexivity).
  assert (out_of_bounds crowded
            (five_nodes ++ five_nodes ++ [worker "n11" false; worker "n12" false])) as Hout
    by (right; right; reflexivity).
  split; [exact Hl|]. split; [exact Hout|].
  destruct (bounds_guard_aborts lone "default" crowded _ _ Hl Hout)
    as (warning & Hrun & _ & _ & _ & Hm).
  eexists. split; [exact Hrun|exact Hm].
Defined.

Lemma percent_fails_exactly_on_zero_capacity_witness :
  reaches_percent lone drained (load 3600 640) [worker "n1" true; worker "n2" true]
    (quantity 640) (quantity 3600) (quantity 0) (quantity 0) /\
  exists t, scaleNodeGroup lone "default" drained = (None, drained, t) /\ mutations t = [].
Proof.
  assert (reaches_percent lone drained (load 3600 640) [worker "n1" true; worker "n2" true]
            (quantity 640) (quantity 3600) (quantity 0) (quantity 0)) as Hp
    by (repeat split; vm_compute; congruence).
  split; [exact Hp|].
  pose proof (percent_fails_exactly_on_zero_capacity lone "default" drained _ _ _ _ _ _ Hp)
    as Hc.
  change (calcPercentUsage (quantity 3600) (quantity 640) (quantity 0) (quantity 0))
    with (of_int 0, of_int 0, Some "Cannot divide by zero in percent calculation") in Hc.
  destruct Hc as (_ & Hfail & _).
  destruct (Hfail ltac:(discriminate)) as (_ & t & Hrun & _ & Hm).
  exists t. split; [exact Hrun|exact Hm].
Defined.

Lemma dispatch_by_sign_witness :
  reaches_dispatch lone busy (load 3600 640) five_nodes
    (quantity 640) (quantity 3600) (quantity 16000) (quantity 4000) /\
  mutations (snd (scaleNodeGroup lone "default" busy))
  = [EvCall (Call_ScaleUp
       (dispatch_opts lone busy (load 3600 640) five_nodes
          (usage_of (quantity 640) (quantity 3600) (quantity 16000) (quantity 4000))
          (policySwitch thresholds
             (usage_of (quantity 640) (quantity 3600) (quantity 16000) (quantity 4000)))))].
Proof.
  assert (reaches_dispatch lone busy (load 3600 640) five_nodes
            (quantity 640) (quantity 3600) (quantity 16000) (quantity 4000)) as Hd
    by (repeat split; vm_compute; congruence).
  split; [exact Hd|].
  destruct (dispatch_by_sign lone "default" busy _ _ _ _ _ _ Hd) as (_ & Hup & _).
  apply Hup. vm_compute. reflexivity.
Defined.

(** C4 as stated fails where the thresholds are out of order: with the
    lower taint threshold at 50 above the upper one at 20, a usage of 30
    lies between the upper taint threshold and the scale-up threshold, yet
    the switch takes its first branch and the cycle calls ScaleDown, not
    the reaper alone. *)
Lemma hold_range_counterexample :
  ~ (forall (c : Controller node pod) nodegroup state pods allNodes
       memRequest cpuRequest memCapacity cpuCapacity,
       reaches_dispatch c state pods allNodes memRequest cpuRequest memCapacity cpuCapacity ->
       let opts := NodeGroupState_Opts state in
       let usage := usage_of memRequest cpuRequest memCapacity cpuCapacity in
       TaintUpperCapacityThreshholdPercent opts <= usage <= ScaleUpThreshholdPercent opts ->
       policySwitch opts usage = 0 /\
       mutations (snd (scaleNodeGroup c nodegroup state))
       = [EvCall (Call_TryRemoveTaintedNodes (dispatch_opts c state pods allNodes usage 0))]).
Proof.
  intros Hclaim.
  assert (reaches_dispatch lone misordered (load 1200 640) five_nodes
            (quantity 640) (quantity 1200) (quantity 16000) (quantity 4000)) as Hd
    by (repeat split; vm_compute; congruence).
  destruct (Hclaim lone "default" misordered _ _ _ _ _ _ Hd) as [Hzero _].
  - vm_compute. split; discriminate.
  - vm_compute in Hzero. discriminate.
Qed.

(** The same cycle, run: ScaleDown is called for the two nodes of the fast
    removal rate. *)
Example misordered_scales_down :
  mutations (snd (scaleNodeGroup lone "default" misordered))
  = [EvCall (Call_ScaleDown (dispatch_opts lone misordered (load 1200 640) five_nodes 30 2))].
Proof. vm_compute. reflexivity. Qed.

Lemma usage_is_truncated_max_witness :
  reaches_dispatch lone busy (load 3600 640) five_nodes
    (quantity 640) (quantity 3600) (quantity 16000) (quantity 4000) /\
  calcPercentUsage (quantity 3600) (quantity 640) (quantity 4000) (quantity 16000)
  = (percent_of 3600 4000, percent_of 640 16000, None) /\
  ltb (Max (percent_of 3600 4000) (percent_of 640 16000)) (percent_of 3600 4000) = false.
Proof.
  assert (reaches_dispatch lone busy (load 3600 640) five_nodes
            (quantity 640) (quantity 3600) (quantity 16000) (quantity 4000)) as Hd
    by (repeat split; vm_compute; congruence).
  split; [exact Hd|].
  destruct (usage_is_truncated_max lone "default" busy _ _ _ _ _ _ Hd)
    as (Hcalc & _ & _ & Hcpu & _).
  split; [exact Hcalc|exact Hcpu].
Defined.

Lemma aggregation_inputs_witness :
  reaches_aggregation busy (load 3600 640) five_nodes /\
  List.filter is_aggregation (snd (scaleNodeGroup lone "default" busy))
  = [EvCall (Call_CalculatePodsRequestsTotal (load 3600 640));
     EvCall (Call_CalculateNodesCapacityTotal (untaintedOf lone busy five_nodes))].
Proof.
  assert (reaches_aggregation busy (load 3600 640) five_nodes) as Ha
    by (repeat split; vm_compute; congruence).
  split; [exact Ha|].
  pose proof (aggregation_inputs lone "default" busy _ _ Ha) as Hc.
  cbv zeta in Hc.
  change (CalculatePodsRequestsTotal (load 3600 640))
    with (quantity 640, quantity 3600, @None error) in Hc.
  change (CalculateNodesCapacityTotal (untaintedOf lone busy five_nodes))
    with (quantity 16000, quantity 4000, @None error) in Hc.
  destruct Hc as (_ & _ & Hcalls & _).
  apply Hcalls. reflexivity.
Defined.

Lemma sweep_visits_every_group_witness :
  iteration_order pair ["a"; "b"] /\
  exists c' visits,
    fst (fst (RunOnce ["a"; "b"] 0 1 pair)) = Some tt /\
    snd (fst (RunOnce ["a"; "b"] 0 1 pair)) = c' /\
    visit_nodegroup <$> visits = ["a"; "b"] /\
    Forall (visit_of_sweep pair c') visits.
Proof.
  assert (iteration_order pair ["a"; "b"]) as Ho.
  { unfold iteration_order.
    change ((map_to_list (nodeGroups pair)).*1) with ["a"; "b"]. reflexivity. }
  split; [exact Ho|].
  destruct (sweep_visits_every_group pair ["a"; "b"] 0 1 Ho)
    as (c' & visits & Hrun & Hmap & _ & _ & _ & Hvisits).
  exists c', visits. rewrite Hrun. repeat split; [exact Hmap|exact Hvisits].
Defined.

(** The sweep over the pair, run: the first group cannot list its pods and
    logs the error, the second is visited all the same and scales up. *)
Example sweep_past_failure :
  let t := snd (RunOnce ["a"; "b"] 0 1 pair) in
  List.filter is_error_log t
  = [EvLog ErrorLevel None [AStr "Failed to list pods: %v"; AErr (Some "pods unavailable")]] /\
  List.filter is_start_line t = [start_line; start_line] /\
  mutation_opts <$> mutations t
  = [Some (dispatch_opts pair busy (load 3600 640) five_nodes 90 3)].
Proof. vm_compute. repeat split; reflexivity. Qed.

Lemma count_signals_precede_guard_witness :
  listed crowded (load 3600 640)
    (five_nodes ++ five_nodes ++ [worker "n11" false; worker "n12" false]) /\
  exists rest,
    snd (scaleNodeGroup lone "default" crowded)
    = before_guard lone "default" crowded (load 3600 640)
        (five_nodes ++ five_nodes ++ [worker "n11" false; worker "n12" false]) ++ rest.
Proof.
  assert (listed crowded (load 3600 640)
            (five_nodes ++ five_nodes ++ [worker "n11" false; worker "n12" false])) as Hl
    by (split; reflexivity).
  split; [exact Hl|].
  destruct (count_signals_precede_guard lone "default" crowded _ _ Hl)
    as (r & state' & rest & Hrun & _).
  exists rest. rewrite Hrun. cbn [snd]. unfold before_guard. by rewrite <- app_assoc.
Defined.

Lemma partition_by_one_backend_witness :
  dryMode lone rehearsal = true /\
  exists untainted tainted,
    range five_nodes (filterNode lone) ([], []) rehearsal
    = (Some (untainted, tainted), rehearsal, []) /\
    forall node, node ∈ tainted <-> node ∈ five_nodes /\ node_name node ∈ ["n3"].
Proof.
  split; [reflexivity|].
  destruct (partition_by_one_backend lone rehearsal five_nodes)
    as (untainted & tainted & queries & Hrun & _ & Hdry & _).
  destruct (Hdry eq_refl) as [-> Htainted].
  exists untainted, tainted. split; [exact Hrun|exact Htainted].
Defined.

Lemma engine_never_writes_state_witness :
  abort_cause lone unlisted /\
  exists t, scaleNodeGroup lone "a" unlisted = (None, unlisted, t) /\ mutations t = [].
Proof.
  assert (abort_cause lone unlisted) as Ha
    by (apply (abort_pods_fail lone unlisted [] "pods unavailable"); reflexivity).
  split; [exact Ha|].
  destruct (engine_never_writes_state lone "a" unlisted) as [Habort _].
  exact (Habort Ha).
Defined.

End Scenarios.

(** ** Further properties *)

(** *** The policy and the percentages *)

(** X1.  With positive rates the sign of the delta is decided by the
    thresholds alone, in any order: the delta is negative exactly for a
    usage below the lower or the upper taint threshold, positive exactly
    for a usage at or above both and above the scale-up threshold, and
    zero exactly for a usage at or above both and at most the scale-up
    threshold.  So a usage above the scale-up threshold but below a taint
    threshold scales down, and no usage holds steady when the scale-up
    threshold lies below a taint threshold. *)
Theorem policy_sign_by_thresholds (opts : NodeGroupOptions) (usage : Z) :
  positive_rates opts ->
  let lower := TaintLowerCapacityThreshholdPercent opts in
  let upper := TaintUpperCapacityThreshholdPercent opts in
  let up := ScaleUpThreshholdPercent opts in
  let delta := policySwitch opts usage in
  (delta < 0 <-> usage < lower \/ usage < upper) /\
  (delta > 0 <-> lower <= usage /\ upper <= usage /\ up < usage) /\
  (delta = 0 <-> lower <= usage /\ upper <= usage <= up) /\
  (up < lower \/ up < upper -> delta <> 0).
Proof.
  intros (Hslow & Hfast & Hrev) lower upper up delta.
  assert (GoInt.neg (FastNodeRemovalRate opts) < 0) as Hf.
  { rewrite neg_opp; unfold GoInt.min_int, GoInt.max_int in *; lia. }
  assert (GoInt.neg (SlowNodeRemovalRate opts) < 0) as Hs.
  { rewrite neg_opp; unfold GoInt.min_int, GoInt.max_int in *; lia. }
  subst delta. unfold policySwitch. fold lower upper up.
  destruct (usage <? lower) eqn:Ha; [lia|].
  destruct (usage <? upper) eqn:Hb; [lia|].
  destruct (usage >? up) eqn:Hc; lia.
Qed.








(** *** Single cycles *)

Section FurtherProperties.

Context {Node Pod : Type} `{K : Collaborators Node Pod}.

Implicit Types (c : Controller Node Pod) (state : NodeGroupState Node Pod).
Implicit Types (node : Node) (allNodes : list Node) (pods : list Pod).
Implicit Types (nodegroup : string) (e : Event Node Pod).

Local Open Scope string_scope.
Local Open Scope list_scope.
Local Open Scope Z_scope.

(** X3.  When a listing fails the cycle stalls: it logs the one error and
    returns with the group state as it was, having set no gauge and called
    neither an aggregation nor a mutation operation; when it is the pods
    that cannot be listed, the nodes are not listed either. *)
Theorem listing_failure_stalls c nodegroup state :
  snd (Pods_List (Lister state)) <> None \/ snd (Nodes_List (Lister state)) <> None ->
  exists t line,
    scaleNodeGroup c nodegroup state = (None, state, t) /\
    last t = Some line /\
    List.filter is_error_log t = [line] /\
    List.filter is_gauge t = [] /\
    List.filter is_aggregation t = [] /\
    mutations t = [] /\
    (snd (Pods_List (Lister state)) <> None ->
     t = [EvCall Call_Pods_List; line]).
Proof.
  intros Hfail.
  destruct (Pods_List (Lister state)) as [pods [err|]] eqn:Hpods.
  { do 2 eexists. split; [by apply (cycle_pods_fail c nodegroup state pods err)|].
    by repeat split. }
  destruct (Nodes_List (Lister state)) as [allNodes [err|]] eqn:Hnodes.
  { do 2 eexists.
    split; [by apply (cycle_nodes_fail c nodegroup state pods allNodes err)|].
    by repeat split. }
  simpl in Hfail. tauto.
Qed.

Lemma mutation_opts_is_mutation e opts :
  mutation_opts e = Some opts -> is_mutation e = true.
Proof. by destruct e as [| |[]]. Qed.

Lemma elem_of_mutations e (t : list (Event Node Pod)) :
  e ∈ t -> is_mutation e = true -> e ∈ mutations t.
Proof.
  intros Hin He. apply list_elem_of_In, List.filter_In.
  split; [by apply list_elem_of_In|done].
Qed.

Lemma In_mutations_elem_of e (t : list (Event Node Pod)) :
  In e (mutations t) -> e ∈ t.
Proof.
  intros Hin. apply list_elem_of_In.
  unfold mutations in Hin. by apply List.filter_In in Hin as [Hin _].
Qed.

(** The one mutation call of a cycle, if any, with the way the cycle
    went. *)
Lemma cycle_mutation_call c nodegroup state e :
  e ∈ snd (scaleNodeGroup c nodegroup state) ->
  is_mutation e = true ->
  exists pods allNodes memRequest cpuRequest memCapacity cpuCapacity,
    reaches_dispatch c state pods allNodes memRequest cpuRequest memCapacity cpuCapacity /\
    e = dispatch_call c state pods allNodes
          (usage_of memRequest cpuRequest memCapacity cpuCapacity)
          (policySwitch (NodeGroupState_Opts state)
             (usage_of memRequest cpuRequest memCapacity cpuCapacity)).
Proof.
  intros Hin He. pose proof (elem_of_mutations _ _ Hin He) as Hm.
  destruct (abort_or_dispatch c state)
    as [Habort|(pods & allNodes & mr & cr & mc & cc & Hd)].
  { destruct (abort_returns c nodegroup state Habort) as (t & Hrun & Hnone).
    rewrite Hrun in Hm. cbn [snd] in Hm. rewrite Hnone in Hm.
    by apply elem_of_nil in Hm. }
  exists pods, allNodes, mr, cr, mc, cc. split; [exact Hd|].
  rewrite (cycle_dispatch_mutations c nodegroup _ _ _ _ _ _ _ Hd) in Hm.
  by apply list_elem_of_singleton in Hm.
Qed.

(** X4.  A mutation operation is only ever called on a group that is
    within its bounds: whatever call a cycle makes, the options it hands
    over hold the group state as it was at the start of the cycle, the pods
    and the nodes as listed, at least one node and no fewer than the
    minimum nor more than the maximum, and as tainted and untainted nodes
    the partition of the listed nodes. *)
Theorem mutation_calls_within_bounds c nodegroup state e opts :
  e ∈ snd (scaleNodeGroup c nodegroup state) ->
  mutation_opts e = Some opts ->
  nodeGroup opts = state /\
  Pods_List (Lister state) = (pods opts, None) /\
  Nodes_List (Lister state) = (nodes opts, None) /\
  0 < GoInt.len (nodes opts) /\
  MinNodes (NodeGroupState_Opts state) <= GoInt.len (nodes opts)
    <= MaxNodes (NodeGroupState_Opts state) /\
  taintedNodes opts = taintedOf c state (nodes opts) /\
  untaintedNodes opts = untaintedOf c state (nodes opts) /\
  taintedNodes opts ++ untaintedNodes opts ≡ₚ nodes opts.
Proof.
  intros Hin Ho.
  destruct (cycle_mutation_call c nodegroup state e Hin
              (mutation_opts_is_mutation _ _ Ho))
    as (ps & ns & mr & cr & mc & cc & Hd & ->).
  destruct Hd as [[[[Hpods Hnodes] (Hne & Hmin & Hmax)] _] _].
  assert (opts = dispatch_opts c state ps ns
                   (usage_of mr cr mc cc) (nodesDelta opts)) as ->.
  { unfold dispatch_call in Ho.
    destruct (_ <? 0); [|destruct (_ >? 0)]; by injection Ho as <-. }
  cbn [dispatch_opts nodeGroup pods nodes taintedNodes untaintedNodes].
  repeat split; try done.
  - unfold GoInt.len in *. lia.
  - apply filter_app_complement.
Qed.

(** X5.  With rates that are 64-bit integers, ScaleUp is only ever asked
    for a positive number of nodes, and ScaleDown for a positive number or,
    where the delta is the minimum integer, whose negation wraps, for that;
    the reaper is always called with a zero [nodesDelta].  A zero rate thus
    never reaches ScaleUp or ScaleDown: its branch ends at the reaper. *)
Theorem scale_calls_ask_for_nodes c nodegroup state e opts :
  GoInt.in_range (FastNodeRevivalRate (NodeGroupState_Opts state)) ->
  e ∈ snd (scaleNodeGroup c nodegroup state) ->
  mutation_opts e = Some opts ->
  match e with
  | EvCall (Call_ScaleUp _) => 0 < nodesDelta opts
  | EvCall (Call_ScaleDown _) =>
      0 < nodesDelta opts \/ nodesDelta opts = GoInt.min_int
  | _ => nodesDelta opts = 0
  end.
Proof.
  intros Hrange Hin Ho.
  destruct (cycle_mutation_call c nodegroup state e Hin
              (mutation_opts_is_mutation _ _ Ho))
    as (pods & allNodes & mr & cr & mc & cc & Hd & ->).
  set (usage := usage_of mr cr mc cc) in *.
  assert (GoInt.in_range (policySwitch (NodeGroupState_Opts state) usage)) as Hdelta.
  { unfold policySwitch.
    destruct (_ <? _); [apply neg_in_range|].
    destruct (_ <? _); [apply neg_in_range|].
    destruct (_ >? _); [done|]. unfold GoInt.in_range, GoInt.min_int, GoInt.max_int. lia. }
  set (delta := policySwitch (NodeGroupState_Opts state) usage) in *.
  unfold dispatch_call in *.
  destruct (delta <? 0) eqn:Hneg.
  { injection Ho as <-. cbn [dispatch_opts nodesDelta].
    destruct (Z.eq_dec delta GoInt.min_int) as [->|Hne]; [by right|left].
    rewrite neg_opp; unfold GoInt.in_range, GoInt.min_int, GoInt.max_int in *; lia. }
  destruct (delta >? 0) eqn:Hpos.
  { injection Ho as <-. cbn [dispatch_opts nodesDelta]. lia. }
  by injection Ho as <-.
Qed.

(** X6.  With the minimum above the maximum, or a maximum below one, no
    node count is within the bounds: every cycle returns early, with the
    group state as it was, and calls neither an aggregation nor a mutation
    operation, whatever the cluster holds. *)
Theorem inverted_bounds_never_dispatch c nodegroup state :
  MaxNodes (NodeGroupState_Opts state) < MinNodes (NodeGroupState_Opts state) \/
  MaxNodes (NodeGroupState_Opts state) < 1 ->
  exists t,
    scaleNodeGroup c nodegroup state = (None, state, t) /\
    List.filter is_aggregation t = [] /\
    mutations t = [].
Proof.
  intros Hbounds.
  assert (forall allNodes, ~ within_bounds state allNodes) as Hnever.
  { intros allNodes (Hne & Hmin & Hmax). unfold GoInt.len in *. lia. }
  destruct (abort_or_dispatch c state)
    as [[pods e Hp|pods allNodes e Hp Hn|pods allNodes Hl Hout
        |pods allNodes mr cr e [_ Hin] _|pods allNodes mr cr mc cc e [_ Hin] _ _
        |pods allNodes mr cr mc cc [[_ Hin] _] _]
       |(pods & allNodes & mr & cr & mc & cc & [[[_ Hin] _] _])];
    try (by destruct (Hnever _ Hin)).
  - eexists. split; [by apply (cycle_pods_fail c nodegroup state pods e)|done].
  - eexists. split; [by apply (cycle_nodes_fail c nodegroup state pods allNodes e)|done].
  - eexists. split; [by apply (cycle_out_of_bounds c nodegroup state pods allNodes)|].
    rewrite mutations_app, List.filter_app.
    rewrite before_guard_no_aggregation, before_guard_no_mutation. simpl.
    pose proof (bounds_warning_is_warning nodegroup state allNodes) as Hw.
    by destruct (bounds_warning nodegroup state allNodes) as [[] ? ?| |].
Qed.

(** *** The partition *)

(** X7.  The partition keeps the order of the listing: the untainted and
    the tainted nodes are each a sub-sequence of the listed nodes, and
    their counts add up to the count of the listed nodes, so that the three
    node gauges of a cycle always agree. *)
Theorem partition_keeps_listing_order c state allNodes :
  exists untainted tainted queries,
    range allNodes (filterNode c) ([], []) state
    = (Some (untainted, tainted), state, queries) /\
    untainted `sublist_of` allNodes /\
    tainted `sublist_of` allNodes /\
    GoInt.len untainted + GoInt.len tainted = GoInt.len allNodes.
Proof.
  exists (untaintedOf c state allNodes), (taintedOf c state allNodes),
    (taint_queries c state allNodes).
  split; [apply (partition_run c allNodes [] [] state)|].
  unfold untaintedOf, taintedOf.
  split; [apply sublist_filter|]. split; [apply sublist_filter|].
  pose proof (filter_app_complement (tainted c state) allNodes) as Hperm.
  apply Permutation_length in Hperm. rewrite length_app in Hperm.
  unfold GoInt.len. lia.
Qed.

(** X8.  Outside dry-run the partition depends on the nodes alone: for
    any two group states that are not in dry-run, whatever their taint
    trackers, options and listers, the loop gives the same two lists and
    makes the same calls to the taint predicate. *)
Theorem tracker_unread_outside_dry_run c state state' allNodes :
  dryMode c state = false ->
  dryMode c state' = false ->
  exists untainted tainted queries,
    range allNodes (filterNode c) ([], []) state
    = (Some (untainted, tainted), state, queries) /\
    range allNodes (filterNode c) ([], []) state'
    = (Some (untainted, tainted), state', queries).
Proof.
  intros Hdry Hdry'.
  exists (untaintedOf c state allNodes), (taintedOf c state allNodes),
    (taint_queries c state allNodes).
  split; [apply (partition_run c allNodes [] [] state)|].
  rewrite (partition_run c allNodes [] [] state'). cbn [app].
  assert (forall node, tainted c state' node <-> tainted c state node) as Hiff.
  { intros node. unfold tainted. by rewrite Hdry, Hdry'. }
  unfold untaintedOf, taintedOf, taint_queries. rewrite Hdry, Hdry'.
  rewrite (list_filter_iff _ _ allNodes Hiff).
  rewrite (list_filter_iff (fun node => ~ tainted c state' node)
             (fun node => ~ tainted c state node) allNodes); [done|].
  intros node. by rewrite Hiff.
Qed.

Lemma partition_untracked c state allNodes :
  dryMode c state = true ->
  (forall node, node ∈ allNodes -> Node_Name node ∉ taintTracker state) ->
  range allNodes (filterNode c) ([], []) state = (Some (allNodes, []), state, []).
Proof.
  intros Hdry Hfree. rewrite (partition_run c allNodes [] [] state). cbn [app].
  unfold untaintedOf, taintedOf, taint_queries. rewrite Hdry.
  assert (forall node, node ∈ allNodes -> ~ tainted c state node) as Hnone.
  { intros node Hin. unfold tainted. rewrite Hdry. by apply Hfree. }
  clear Hfree. induction allNodes as [|node allNodes IH]; [done|].
  rewrite !filter_cons.
  assert (~ tainted c state node) as Hn by (apply Hnone; left).
  rewrite decide_True, decide_False by done.
  assert (forall node', node' ∈ allNodes -> ~ tainted c state node') as Hrest
    by (intros node' Hin; apply Hnone; by right).
  specialize (IH Hrest). by injection IH as -> ->.
Qed.

(** X9.  Under dry-run, when the tracker names none of the listed nodes,
    as with the empty tracker of a new group, every listed node is
    untainted, in the order listed, none is tainted, nodes that carry the
    taint included, and the taint predicate is not called.  The capacity
    is then aggregated over all the listed nodes, and a mutation operation
    is handed all of them as untainted. *)
Theorem dry_run_untracked_all_untainted c state allNodes :
  dryMode c state = true ->
  (forall node, node ∈ allNodes -> Node_Name node ∉ taintTracker state) ->
  range allNodes (filterNode c) ([], []) state = (Some (allNodes, []), state, []) /\
  untaintedOf c state allNodes = allNodes /\
  taintedOf c state allNodes = [] /\
  taint_queries c state allNodes = [].
Proof.
  intros Hdry Hfree.
  pose proof (partition_untracked c state allNodes Hdry Hfree) as Hrun.
  split; [exact Hrun|].
  rewrite (partition_run c allNodes [] [] state) in Hrun. cbn [app] in Hrun.
  injection Hrun as Hu Ht Hq. by repeat split.
Qed.

(** *** Sweeps *)

(** One turn of the loop of [RunOnce] on a key the map does not hold. *)
Lemma sweepGroup_skip nodegroup c :
  nodeGroups c !! nodegroup = None ->
  sweepGroup nodegroup tt c = (Some tt, c, []).
Proof.
  intros Hk. unfold sweepGroup, bind, get. cbn beta iota. by rewrite Hk.
Qed.

(** The loop of [RunOnce] on any list of keys: it runs to its end, leaves
    the options and the set of groups as they were, and does not touch a
    group outside the list. *)
Lemma sweep_frame (order : list string) : forall c,
  exists c' t,
    range order sweepGroup tt c = (Some tt, c', t) /\
    Controller_Opts c' = Controller_Opts c /\
    dom (nodeGroups c') = dom (nodeGroups c) /\
    (forall k, k ∉ order -> nodeGroups c' !! k = nodeGroups c !! k).
Proof.
  induction order as [|k order IH]; intros c.
  { exists c, []. by repeat split. }
  cbn [range]. unfold bind at 1.
  destruct (nodeGroups c !! k) as [state|] eqn:Hk.
  - rewrite (sweepGroup_run k c state Hk).
    set (c1 := {| Controller_Opts := Controller_Opts c;
                  nodeGroups := <[k := fst (run_cycle c k state)]> (nodeGroups c) |}).
    destruct (IH c1) as (c' & t & Hrun & Hopts & Hdom & Hrest).
    rewrite Hrun. do 2 eexists. split; [reflexivity|].
    split; [by rewrite Hopts|]. split.
    + rewrite Hdom. simpl. by apply dom_insert_lookup_L.
    + intros k' Hk'. apply not_elem_of_cons in Hk' as [Hne Hk'].
      rewrite (Hrest k' Hk'). simpl. by apply lookup_insert_ne.
  - rewrite (sweepGroup_skip k c Hk).
    destruct (IH c) as (c' & t & Hrun & Hopts & Hdom & Hrest).
    rewrite Hrun. do 2 eexists. split; [reflexivity|].
    split; [done|]. split; [done|].
    intros k' Hk'. apply not_elem_of_cons in Hk' as [Hne Hk']. by apply Hrest.
Qed.

(** X10.  A sweep never adds or removes a group and never changes the
    options of the controller: whatever the order it is given and whatever
    its cycles do, [RunOnce] runs to its end, the controller it leaves has
    the same options and the same group names, and a group whose name is
    not in the order is left exactly as it was. *)
Theorem sweep_keeps_groups c (order : list string) (startTime endTime : Z) :
  exists c' t,
    RunOnce order startTime endTime c = (Some tt, c', t) /\
    Controller_Opts c' = Controller_Opts c /\
    dom (nodeGroups c') = dom (nodeGroups c) /\
    (forall k, k ∉ order -> nodeGroups c' !! k = nodeGroups c !! k).
Proof.
  destruct (sweep_frame order c) as (c' & t & Hrun & Hopts & Hdom & Hrest).
  exists c'. eexists. split; [|done].
  unfold RunOnce, bind. rewrite Hrun. reflexivity.
Qed.

Lemma controller_eta c :
  {| Controller_Opts := Controller_Opts c; nodeGroups := nodeGroups c |} = c.
Proof. by destruct c. Qed.

(** The loop of [RunOnce] when every group of the map has a cause to
    return early. *)
Lemma sweep_of_aborts (order : list string) c :
  (forall k state, nodeGroups c !! k = Some state -> abort_cause c state) ->
  exists t, range order sweepGroup tt c = (Some tt, c, t) /\ mutations t = [].
Proof.
  intros Habort. induction order as [|k order IH].
  { by exists []. }
  destruct IH as (t & Hrun & Hnone).
  cbn [range]. unfold bind at 1.
  destruct (nodeGroups c !! k) as [state|] eqn:Hk.
  - rewrite (sweepGroup_run k c state Hk).
    destruct (abort_returns c k state (Habort k state Hk)) as (t1 & Hcycle & Hnone1).
    unfold visit_events, run_cycle.
    cbn [visit_controller visit_nodegroup visit_state]. rewrite Hcycle. cbn [fst snd].
    rewrite (insert_id _ _ _ Hk), controller_eta, Hrun.
    eexists. split; [reflexivity|].
    change (start_line :: t1) with ([start_line] ++ t1).
    by rewrite !mutations_app, Hnone1, Hnone.
  - rewrite (sweepGroup_skip k c Hk), Hrun. by eexists.
Qed.

(** X11.  A sweep in which every group has a cause to return early (a
    listing failure, a count out of bounds, a failed aggregation, a zero
    capacity) leaves the controller exactly as it was and calls no
    mutation operation. *)
Theorem sweep_of_aborts_changes_nothing c (order : list string) (startTime endTime : Z) :
  (forall k state, nodeGroups c !! k = Some state -> abort_cause c state) ->
  exists t,
    RunOnce order startTime endTime c = (Some tt, c, t) /\ mutations t = [].
Proof.
  intros Habort. destruct (sweep_of_aborts order c Habort) as (t & Hrun & Hnone).
  eexists. split.
  - unfold RunOnce, bind. rewrite Hrun. reflexivity.
  - by rewrite mutations_app, Hnone.
Qed.

(** A cycle logs no debug line without the group field. *)
Lemma cycle_no_loop_line c nodegroup state :
  List.filter is_loop_line (snd (scaleNodeGroup c nodegroup state)) = [].
Proof.
  assert (forall pods allNodes,
            List.filter is_loop_line (before_guard c nodegroup state pods allNodes) = [])
    as Hguard by (intros; apply filter_before_guard; intros; reflexivity).
  destruct (abort_or_dispatch c state)
    as [[pods e Hp|pods allNodes e Hp Hn|pods allNodes Hl Hout
        |pods allNodes mr cr e Ha Hreq|pods allNodes mr cr mc cc e Ha Hreq Hcap
        |pods allNodes mr cr mc cc Hp Hz]
       |(pods & allNodes & mr & cr & mc & cc & Hd)].
  - by rewrite (cycle_pods_fail c nodegroup state pods e Hp).
  - by rewrite (cycle_nodes_fail c nodegroup state pods allNodes e Hp Hn).
  - rewrite (cycle_out_of_bounds c nodegroup state pods allNodes Hl Hout). cbn [snd].
    rewrite List.filter_app, Hguard. simpl.
    pose proof (bounds_warning_is_warning nodegroup state allNodes) as Hw.
    by destruct (bounds_warning nodegroup state allNodes) as [[] ? ?| |].
  - rewrite (cycle_requests_fail c nodegroup state pods allNodes mr cr e Ha Hreq).
    cbn [snd]. by rewrite List.filter_app, Hguard.
  - rewrite (cycle_capacity_fail c nodegroup state pods allNodes mr cr mc cc e Ha Hreq Hcap).
    cbn [snd]. by rewrite !List.filter_app, Hguard.
  - rewrite (cycle_percent_fail c nodegroup state pods allNodes mr cr mc cc Hp Hz).
    cbn [snd]. by rewrite !List.filter_app, Hguard.
  - rewrite (cycle_dispatch c nodegroup state pods allNodes mr cr mc cc Hd).
    cbn [snd]. rewrite !List.filter_app, Hguard. cbn [app].
    assert (forall usage delta,
              List.filter is_loop_line
                (snd (dispatch c nodegroup state pods allNodes usage delta)) = []) as Hdisp.
    { intros usage delta. unfold dispatch.
      destruct (delta <? 0).
      { destruct (ScaleDown c _) as [[affected err] state']. cbn [snd].
        rewrite !List.filter_app, error_line_filter by done. reflexivity. }
      destruct (delta >? 0).
      { destruct (ScaleUp c _) as [[affected err] state']. cbn [snd].
        rewrite !List.filter_app, error_line_filter by done. reflexivity. }
      destruct (TryRemoveTaintedNodes c _) as [[removed err] state']. cbn [snd].
      rewrite !List.filter_app, error_line_filter by done. reflexivity. }
    rewrite Hdisp. reflexivity.
Qed.

Lemma filter_weaker {A} (p q : A -> bool) (l : list A) :
  (forall x, p x = true -> q x = true) ->
  List.filter q l = [] -> List.filter p l = [].
Proof.
  intros Hpq. induction l as [|x l IH]; [done|]. simpl.
  destruct (q x) eqn:Hq; [discriminate|].
  destruct (p x) eqn:Hp; [by rewrite (Hpq x Hp) in Hq|]. exact IH.
Qed.

(** A cycle calls at most one mutation operation. *)
Lemma cycle_at_most_one_mutation c nodegroup state :
  (length (mutations (snd (scaleNodeGroup c nodegroup state))) <= 1)%nat.
Proof.
  destruct (abort_or_dispatch c state)
    as [Habort|(pods & allNodes & mr & cr & mc & cc & Hd)].
  - destruct (abort_returns c nodegroup state Habort) as (t & Hrun & Hnone).
    rewrite Hrun. cbn [snd]. rewrite Hnone. simpl. lia.
  - by rewrite (cycle_dispatch_mutations c nodegroup _ _ _ _ _ _ _ Hd).
Qed.

(** The lines and the calls of the visits of a sweep. *)
Lemma visits_lines_and_calls (visits : list Visit) :
  let t := concat (visit_events <$> visits) in
  List.filter is_duration_line t = [] /\
  length (List.filter is_start_line t) = length visits /\
  (length (mutations t) <= length visits)%nat.
Proof.
  induction visits as [|v visits (IHd & IHs & IHm)]; [done|].
  cbv zeta. rewrite fmap_cons. cbn [concat]. unfold visit_events at 1 3 5.
  change (start_line :: ?t) with ([start_line] ++ t).
  unfold run_cycle.
  destruct (scaleNodeGroup (visit_controller v) (visit_nodegroup v) (visit_state v))
    as [[r state'] t1] eqn:Hrun. cbn [snd].
  pose proof (cycle_no_loop_line (visit_controller v) (visit_nodegroup v) (visit_state v))
    as Hloop.
  pose proof (cycle_at_most_one_mutation (visit_controller v) (visit_nodegroup v)
                (visit_state v)) as Hone.
  rewrite Hrun in Hloop, Hone. cbn [snd] in Hloop, Hone.
  assert (List.filter is_duration_line t1 = []) as Hd1.
  { apply (filter_weaker _ is_loop_line); [|done]. by intros [[] [] [|[] ?]| |]. }
  assert (List.filter is_start_line t1 = []) as Hs1.
  { apply (filter_weaker _ is_loop_line); [|done]. by intros [[] [] [|[] ?]| |]. }
  unfold mutations in *.
  rewrite !List.filter_app, Hd1, Hs1, IHd.
  rewrite !length_app, IHs. split; [done|]. split; [done|].
  simpl. lia.
Qed.

(** X12.  The log and the calls of one sweep over the map: one start line
    for each group, one line on the duration, and at most one call to a
    mutation operation for each group. *)
Theorem sweep_lines_and_calls c (order : list string) (startTime endTime : Z) :
  iteration_order c order ->
  let t := snd (RunOnce order startTime endTime c) in
  length (List.filter is_start_line t) = size (nodeGroups c) /\
  sweeps t = 1%nat /\
  (length (mutations t) <= size (nodeGroups c))%nat.
Proof.
  intros Horder. unfold iteration_order in Horder.
  assert (NoDup order) as Hnd.
  { rewrite Horder. apply NoDup_fst_map_to_list. }
  assert (forall k, k ∈ order -> is_Some (nodeGroups c !! k)) as Hkeys.
  { intros k Hk. rewrite Horder in Hk.
    apply list_elem_of_fmap in Hk as ([k' state] & -> & Hin).
    apply elem_of_map_to_list in Hin. by exists state. }
  destruct (sweep_loop order c Hnd Hkeys)
    as (c' & visits & Hrun & Hmap & _).
  assert (length visits = size (nodeGroups c)) as Hlen.
  { rewrite <- (length_fmap visit_nodegroup), Hmap, Horder, length_fmap.
    apply length_map_to_list. }
  destruct (visits_lines_and_calls visits) as (Hd & Hs & Hm).
  cbv zeta. unfold RunOnce, bind, emit. rewrite Hrun. cbn [snd].
  unfold sweeps, mutations in *.
  rewrite !List.filter_app, Hd, !length_app, Hs.
  simpl. lia.
Qed.

(** *** The control loop *)

(** The loop of [RunOnce] logs no line on the duration, whatever the list
    of keys. *)
Lemma sweep_loop_no_duration (order : list string) : forall c,
  List.filter is_duration_line (snd (range order sweepGroup tt c)) = [].
Proof.
  induction order as [|k order IH]; intros c; [done|].
  cbn [range]. unfold bind at 1.
  destruct (nodeGroups c !! k) as [state|] eqn:Hk.
  - rewrite (sweepGroup_run k c state Hk).
    set (c1 := {| Controller_Opts := Controller_Opts c;
                  nodeGroups := <[k := fst (run_cycle c k state)]> (nodeGroups c) |}).
    specialize (IH c1). destruct (range order sweepGroup tt c1) as [[r c'] t].
    cbn [snd] in *. rewrite List.filter_app, IH.
    unfold visit_events, run_cycle.
    cbn [visit_controller visit_nodegroup visit_state].
    pose proof (cycle_no_loop_line c k state) as Hloop.
    destruct (scaleNodeGroup c k state) as [[r1 state'] t1]. cbn [snd] in *.
    change (start_line :: t1) with ([start_line] ++ t1).
    rewrite List.filter_app.
    rewrite (filter_weaker is_duration_line is_loop_line t1); [done| |done].
    by intros [[] [] [|[] ?]| |].
  - rewrite (sweepGroup_skip k c Hk).
    specialize (IH c). destruct (range order sweepGroup tt c) as [[r c'] t].
    exact IH.
Qed.

(** One sweep, on any list of keys. *)
Lemma RunOnce_run c (order : list string) (startTime endTime : Z) :
  exists c' t,
    RunOnce order startTime endTime c = (Some tt, c', t) /\
    Controller_Opts c' = Controller_Opts c /\
    dom (nodeGroups c') = dom (nodeGroups c) /\
    sweeps t = 1%nat.
Proof.
  destruct (sweep_frame order c) as (c' & t & Hrun & Hopts & Hdom & _).
  pose proof (sweep_loop_no_duration order c) as Hnone.
  rewrite Hrun in Hnone. cbn [snd] in Hnone.
  exists c'. eexists. split; [|split; [done|split; [done|]]].
  - unfold RunOnce, bind, emit. rewrite Hrun. reflexivity.
  - unfold sweeps. by rewrite List.filter_app, Hnone.
Qed.

Lemma sweeps_app (t1 t2 : list (Event Node Pod)) :
  sweeps (t1 ++ t2) = (sweeps t1 + sweeps t2)%nat.
Proof. unfold sweeps. by rewrite List.filter_app, length_app. Qed.

(** The loop of [RunForever] on the signals it receives. *)
Lemma mainLoop_run (signals : list Signal) : forall c,
  exists c' t,
    mainLoop signals c
    = (Some (if forallb is_tick signals then Waiting else Returned), c', t) /\
    Controller_Opts c' = Controller_Opts c /\
    dom (nodeGroups c') = dom (nodeGroups c) /\
    sweeps t = ticks_until_stop signals /\
    (forallb is_tick signals = false -> last t = Some stop_line).
Proof.
  induction signals as [|[order startTime endTime|] signals IH]; intros c.
  - exists c, []. by repeat split.
  - destruct (RunOnce_run c order startTime endTime)
      as (c1 & t1 & Hrun1 & Hopts1 & Hdom1 & Hsweeps1).
    destruct (IH c1) as (c' & t & Hrun & Hopts & Hdom & Hsweeps & Hlast).
    exists c',
      ([EvLog DebugLevel None [AStr "**********[AUTOSCALER MAIN LOOP]**********"]]
       ++ t1 ++ t).
    split; [|split; [|split; [|split]]].
    + cbn [mainLoop forallb is_tick andb]. unfold bind at 1 2. unfold emit at 1.
      rewrite Hrun1, Hrun. reflexivity.
    + by rewrite Hopts.
    + by rewrite Hdom.
    + rewrite !sweeps_app, Hsweeps1, Hsweeps. reflexivity.
    + intros Hstop. cbn [forallb is_tick andb] in Hstop. specialize (Hlast Hstop).
      by rewrite !last_app, Hlast.
  - exists c, [stop_line]. split; [reflexivity|]. by repeat split.
Qed.

(** X13.  With a positive scan interval [RunForever] runs one sweep for
    each tick that comes before the first stop, and one more at the start
    when asked to run immediately; it returns only on a stop, the line on
    stopping its last, and until then it waits; a stop ends it whatever
    ticks would follow, and whatever the sweeps did.  It leaves the options
    and the group names of the controller as they were. *)
Theorem control_loop_sweeps c (runImmediately : bool)
    (order : list string) (startTime endTime : Z) (signals : list Signal) :
  0 < ScanInterval (Controller_Opts c) ->
  exists c' t,
    RunForever runImmediately order startTime endTime signals c
    = (Some (if forallb is_tick signals then Waiting else Returned), c', t) /\
    sweeps t = ((if runImmediately then 1 else 0) + ticks_until_stop signals)%nat /\
    (forallb is_tick signals = false -> last t = Some stop_line) /\
    Controller_Opts c' = Controller_Opts c /\
    dom (nodeGroups c') = dom (nodeGroups c).
Proof.
  intros Hinterval. unfold RunForever, when.
  destruct runImmediately.
  - destruct (RunOnce_run c order startTime endTime)
      as (c1 & t1 & Hrun1 & Hopts1 & Hdom1 & Hsweeps1).
    destruct (mainLoop_run signals c1) as (c' & t & Hrun & Hopts & Hdom & Hsweeps & Hlast).
    exists c',
      (([EvLog DebugLevel None [AStr "**********[AUTOSCALER FIRST LOOP]**********"]]
        ++ t1) ++ t).
    split; [|split; [|split; [|split]]].
    + unfold bind at 1 2 3. unfold emit at 1, get. rewrite Hrun1.
      rewrite Hopts1, (proj2 (Z.leb_gt _ _) Hinterval), Hrun. reflexivity.
    + rewrite !sweeps_app, Hsweeps1, Hsweeps. reflexivity.
    + intros Hstop. specialize (Hlast Hstop). by rewrite last_app, Hlast.
    + by rewrite Hopts.
    + by rewrite Hdom.
  - destruct (mainLoop_run signals c) as (c' & t & Hrun & Hopts & Hdom & Hsweeps & Hlast).
    exists c', t. split; [|done].
    unfold bind, ret, get. rewrite (proj2 (Z.leb_gt _ _) Hinterval), Hrun. reflexivity.
Qed.

(** X14.  With a scan interval that is not positive, for which
    [time.NewTicker] panics, [RunForever] panics before it enters its loop:
    no tick starts a sweep and no stop is received; only the immediate
    sweep has run, when asked for, and without it the controller is
    untouched and nothing is logged. *)
Theorem nonpositive_interval_panics c (runImmediately : bool)
    (order : list string) (startTime endTime : Z) (signals : list Signal) :
  ScanInterval (Controller_Opts c) <= 0 ->
  exists c' t,
    RunForever runImmediately order startTime endTime signals c
    = (Some Panicked, c', t) /\
    sweeps t = (if runImmediately then 1 else 0)%nat /\
    (runImmediately = false -> c' = c /\ t = []).
Proof.
  intros Hinterval. unfold RunForever, when.
  destruct runImmediately.
  - destruct (RunOnce_run c order startTime endTime)
      as (c1 & t1 & Hrun1 & Hopts1 & Hdom1 & Hsweeps1).
    exists c1,
      (([EvLog DebugLevel None [AStr "**********[AUTOSCALER FIRST LOOP]**********"]]
        ++ t1) ++ []).
    split; [|split; [|done]].
    + unfold bind at 1 2 3. unfold emit at 1, get. rewrite Hrun1.
      rewrite Hopts1, (proj2 (Z.leb_le _ _) Hinterval). reflexivity.
    + rewrite !sweeps_app, Hsweeps1. reflexivity.
  - exists c, []. split; [|done].
    unfold bind, ret, get. by rewrite (proj2 (Z.leb_le _ _) Hinterval).
Qed.

(** *** Construction *)

Lemma built_groups_snoc (listers : gmap string (NodeGroupLister Node Pod))
    (l : list NodeGroupOptions) (o : NodeGroupOptions) :
  built_groups listers (l ++ [o])
  = <[Name o := fresh_state listers o]> (built_groups listers l).
Proof. unfold built_groups. by rewrite fold_left_app. Qed.

(** The entry of a name in the map is the state allocated for the last
    options of that name. *)
Lemma built_groups_lookup (listers : gmap string (NodeGroupLister Node Pod))
    (l : list NodeGroupOptions) (name : string) (fresh : FreshNodeGroupState Node Pod) :
  built_groups listers l !! name = Some fresh
  <-> exists o, last_named name l o /\ fresh = fresh_state listers o.
Proof.
  induction l as [|o l IH] using rev_ind.
  { unfold built_groups. simpl. rewrite lookup_empty. split; [done|].
    intros (o & (before & after & Heq & _) & _). by destruct before. }
  rewrite built_groups_snoc, lookup_insert.
  destruct (decide (Name o = name)) as [Hname|Hname].
  - split.
    + intros [= <-]. exists o. split; [|done].
      exists l, []. split; [done|]. split; [done|].
      intros o' Hin. by apply elem_of_nil in Hin.
    + intros (o' & (before & after & Heq & Hn & Hlast) & ->).
      destruct after as [|x after _] using rev_ind.
      * apply app_inj_tail in Heq as [_ ->]. done.
      * rewrite app_comm_cons, app_assoc in Heq. apply app_inj_tail in Heq as [_ ->].
        exfalso. apply (Hlast x); [apply elem_of_app; right; left|done].
  - rewrite IH. split.
    + intros (o' & (before & after & -> & Hn & Hlast) & ->).
      exists o'. split; [|done]. exists before, (after ++ [o]).
      split; [by rewrite <- app_assoc|]. split; [done|].
      intros x Hx. apply elem_of_app in Hx as [Hx|Hx]; [by apply Hlast|].
      apply list_elem_of_singleton in Hx as ->. done.
    + intros (o' & (before & after & Heq & Hn & Hlast) & ->).
      exists o'. split; [|done].
      destruct after as [|x after _] using rev_ind.
      * apply app_inj_tail in Heq as [_ ->]. done.
      * rewrite app_comm_cons, app_assoc in Heq. apply app_inj_tail in Heq as [-> ->].
        exists before, after. split; [done|]. split; [done|].
        intros y Hy. apply Hlast. apply elem_of_app. by left.
Qed.

Lemma built_groups_dom (listers : gmap string (NodeGroupLister Node Pod))
    (l : list NodeGroupOptions) (name : string) :
  is_Some (built_groups listers l !! name) <-> name ∈ Name <$> l.
Proof.
  induction l as [|o l IH] using rev_ind.
  { unfold built_groups. simpl. rewrite lookup_empty. split; [by intros [? ?]|].
    intros H. by apply elem_of_nil in H. }
  rewrite built_groups_snoc, lookup_insert, fmap_app, elem_of_app.
  destruct (decide (Name o = name)) as [Hname|Hname].
  - split; [|by eexists]. intros _. right. rewrite <- Hname. left.
  - rewrite IH. split; [tauto|]. intros [H|H]; [done|].
    apply list_elem_of_singleton in H. by rewrite H in Hname.
Qed.

Lemma built_groups_size (listers : gmap string (NodeGroupLister Node Pod))
    (l : list NodeGroupOptions) :
  (size (built_groups listers l) <= length l)%nat /\
  (NoDup (Name <$> l) <-> size (built_groups listers l) = length l).
Proof.
  induction l as [|o l [IHle IHeq]] using rev_ind.
  { split; [done|]. split; [done|]. intros _. constructor. }
  rewrite built_groups_snoc, length_app, fmap_app. cbn [length].
  pose proof (map_size_insert (Name o) (fresh_state listers o) (built_groups listers l))
    as Hs.
  pose proof (built_groups_dom listers l (Name o)) as Hdom.
  destruct (built_groups listers l !! Name o) as [old|] eqn:Hold; simpl in Hs.
  - split; [lia|]. split.
    + intros Hnd. apply NoDup_app in Hnd as (_ & Hfresh & _).
      exfalso. apply (Hfresh (Name o)); [by apply Hdom|left].
    + lia.
  - split; [lia|]. split.
    + intros Hnd. apply NoDup_app in Hnd as (Hnd & _ & _).
      rewrite Hs, (proj1 IHeq Hnd). lia.
    + intros Hsize. apply NoDup_app. split; [apply IHeq; lia|]. split.
      * intros x Hx Hx'. apply list_elem_of_singleton in Hx' as ->.
        apply Hdom in Hx. by destruct Hx.
      * apply NoDup_singleton.
Qed.

(** X15.  [NewController] with a nil client ends the process.  With a
    client it builds one group for each distinct name among the options:
    the names of the map are the configured names; under a name the state
    holds the last options configured with that name, earlier ones being
    overwritten, the lister the client's map holds under the name, nil if
    it holds none, and an empty taint tracker.  The map has as many groups
    as there are options exactly when no name is configured twice. *)
Theorem NewController_groups (opts : Opts) (client : Client Node Pod) :
  NewController opts (@None (Client Node Pod))
  = Fatal "Failed to create controller client" /\
  exists nodeGroups,
    NewController opts (Some client) = Built opts nodeGroups /\
    (forall name, is_Some (nodeGroups !! name) <-> name ∈ Name <$> NodeGroups opts) /\
    (forall name fresh,
       nodeGroups !! name = Some fresh <->
       exists o, last_named name (NodeGroups opts) o /\
         fresh = {| fresh_Opts := o;
                    fresh_Lister := Listers client !! name;
                    fresh_taintTracker := [] |}) /\
    (size nodeGroups <= length (NodeGroups opts))%nat /\
    (NoDup (Name <$> NodeGroups opts) <-> size nodeGroups = length (NodeGroups opts)).
Proof.
  split; [reflexivity|].
  exists (built_groups (Listers client) (NodeGroups opts)).
  split; [reflexivity|].
  split; [apply built_groups_dom|]. split; [|apply built_groups_size].
  intros name fresh. rewrite built_groups_lookup. split.
  - intros (o & Hlast & ->). exists o. split; [done|].
    destruct Hlast as (_ & _ & _ & <- & _). reflexivity.
  - intros (o & Hlast & ->). exists o. split; [done|].
    destruct Hlast as (_ & _ & _ & <- & _). reflexivity.
Qed.

(** X16.  When the client holds a lister for every configured name, the
    controller [NewController] builds is ready to sweep: it carries the
    options it was given; its groups are the configured names; and the
    state under a name has that name in its options, which are the last
    configured with it, the client's lister for it and an empty taint
    tracker, so that under dry-run its first partition finds every node
    untainted. *)
Theorem new_controller_is_ready (opts : Opts) (client : Client Node Pod) :
  (forall o, o ∈ NodeGroups opts -> is_Some (Listers client !! Name o)) ->
  exists c,
    controller_of (NewController opts (Some client)) = Some c /\
    Controller_Opts c = opts /\
    (forall name, is_Some (nodeGroups c !! name) <-> name ∈ Name <$> NodeGroups opts) /\
    (forall name state,
       nodeGroups c !! name = Some state ->
       Name (NodeGroupState_Opts state) = name /\
       last_named name (NodeGroups opts) (NodeGroupState_Opts state) /\
       Listers client !! name = Some (Lister state) /\
       taintTracker state = [] /\
       (dryMode c state = true ->
        forall allNodes,
          range allNodes (filterNode c) ([], []) state
          = (Some (allNodes, []), state, []))).
Proof.
  intros Hlisters.
  set (built := built_groups (Listers client) (NodeGroups opts)).
  assert (map_Forall (fun _ fresh => is_Some (fresh_Lister fresh)) built) as Hall.
  { intros name fresh Hfresh.
    apply built_groups_lookup in Hfresh as (o & (before & after & Heq & _) & ->).
    apply Hlisters. rewrite Heq. apply elem_of_app. right. left. }
  eexists. split.
  { change (NewController opts (Some client)) with (Built opts built).
    cbn [controller_of]. by rewrite decide_True. }
  split; [reflexivity|]. cbn [nodeGroups]. split.
  - intros name. rewrite <- (built_groups_dom (Listers client)). fold built.
    rewrite lookup_omap. split.
    + intros [state Hstate]. destruct (built !! name); [by eexists|done].
    + intros [fresh Hfresh]. rewrite Hfresh. simpl.
      destruct (Hall name fresh Hfresh) as [lister Hl].
      unfold attach. rewrite Hl. by eexists.
  - intros name state Hstate.
    apply lookup_omap_Some in Hstate as (fresh & Hattach & Hfresh).
    apply built_groups_lookup in Hfresh as (o & Hlast & ->).
    unfold attach, fresh_state in Hattach. cbn in Hattach.
    destruct (Listers client !! Name o) as [lister|] eqn:Hl; [|done].
    injection Hattach as <-. cbn.
    pose proof Hlast as (_ & _ & _ & Hname & _). subst name.
    split; [done|]. split; [done|]. split; [done|]. split; [done|].
    intros Hdry allNodes. apply partition_untracked; [done|].
    intros node _. apply not_elem_of_nil.
Qed.

End FurtherProperties.

(** ** The further properties on the concrete cluster *)

Section FurtherScenarios.

Local Open Scope string_scope.
Local Open Scope list_scope.
Local Open Scope Z_scope.

Lemma policy_sign_by_thresholds_witness :
  positive_rates thresholds /\
  (policySwitch thresholds 30 < 0 <-> 30 < 20 \/ 30 < 50).
Proof.
  assert (positive_rates thresholds) as Hrates by (vm_compute; intuition congruence).
  split; [exact Hrates|].
  exact (proj1 (policy_sign_by_thresholds thresholds 30 Hrates)).
Defined.


Lemma listing_failure_stalls_witness :
  (snd (Pods_List (Lister unlisted)) <> None \/
   snd (Nodes_List (Lister unlisted)) <> None) /\
  exists t, scaleNodeGroup lone "a" unlisted = (None, unlisted, t) /\
            List.filter is_gauge t = [].
Proof.
  assert (snd (Pods_List (Lister unlisted)) <> None \/
          snd (Nodes_List (Lister unlisted)) <> None) as Hfail
    by (left; simpl; discriminate).
  split; [exact Hfail|].
  destruct (listing_failure_stalls lone "a" unlisted Hfail)
    as (t & line & Hrun & _ & _ & Hgauge & _).
  exists t. split; [exact Hrun|exact Hgauge].
Defined.

Lemma mutation_calls_within_bounds_witness :
  let opts := dispatch_opts lone busy (load 3600 640) five_nodes 90 3 in
  EvCall (Call_ScaleUp opts) ∈ snd (scaleNodeGroup lone "default" busy) /\
  mutation_opts (EvCall (Call_ScaleUp opts)) = Some opts /\
  1 <= GoInt.len (nodes opts) <= 10.
Proof.
  intros opts.
  assert (In (EvCall (Call_ScaleUp opts))
            (mutations (snd (scaleNodeGroup lone "default" busy)))) as Hin
    by (vm_compute; left; reflexivity).
  pose proof (In_mutations_elem_of (EvCall (Call_ScaleUp opts))
                (snd (scaleNodeGroup lone "default" busy)) Hin) as Hcall.
  split; [exact Hcall|]. split; [reflexivity|].
  destruct (mutation_calls_within_bounds lone "default" busy _ opts Hcall eq_refl)
    as (_ & _ & _ & _ & Hbounds & _).
  exact Hbounds.
Defined.

Lemma scale_calls_ask_for_nodes_witness :
  let opts := dispatch_opts lone busy (load 3600 640) five_nodes 90 3 in
  GoInt.in_range (FastNodeRevivalRate (NodeGroupState_Opts busy)) /\
  EvCall (Call_ScaleUp opts) ∈ snd (scaleNodeGroup lone "default" busy) /\
  mutation_opts (EvCall (Call_ScaleUp opts)) = Some opts /\
  0 < nodesDelta opts.
Proof.
  intros opts.
  assert (GoInt.in_range (FastNodeRevivalRate (NodeGroupState_Opts busy))) as Hrange
    by (vm_compute; intuition congruence).
  assert (In (EvCall (Call_ScaleUp opts))
            (mutations (snd (scaleNodeGroup lone "default" busy)))) as Hin
    by (vm_compute; left; reflexivity).
  pose proof (In_mutations_elem_of (EvCall (Call_ScaleUp opts))
                (snd (scaleNodeGroup lone "default" busy)) Hin) as Hcall.
  split; [exact Hrange|]. split; [exact Hcall|]. split; [reflexivity|].
  exact (scale_calls_ask_for_nodes lone "default" busy _ opts Hrange Hcall eq_refl).
Defined.

Lemma inverted_bounds_never_dispatch_witness :
  (MaxNodes (NodeGroupState_Opts inverted) < MinNodes (NodeGroupState_Opts inverted) \/
   MaxNodes (NodeGroupState_Opts inverted) < 1) /\
  exists t, scaleNodeGroup lone "default" inverted = (None, inverted, t) /\
            mutations t = [].
Proof.
  assert (MaxNodes (NodeGroupState_Opts inverted) < MinNodes (NodeGroupState_Opts inverted) \/
          MaxNodes (NodeGroupState_Opts inverted) < 1) as Hbounds
    by (left; reflexivity).
  split; [exact Hbounds|].
  destruct (inverted_bounds_never_dispatch lone "default" inverted Hbounds)
    as (t & Hrun & _ & Hnone).
  exists t. split; [exact Hrun|exact Hnone].
Defined.

Lemma tracker_unread_outside_dry_run_witness :
  dryMode lone busy = false /\ dryMode lone misordered = false /\
  fst (fst (range five_nodes (filterNode lone) ([], []) busy))
  = fst (fst (range five_nodes (filterNode lone) ([], []) misordered)).
Proof.
  split; [reflexivity|]. split; [reflexivity|].
  destruct (tracker_unread_outside_dry_run lone busy misordered five_nodes eq_refl eq_refl)
    as (untainted & tainted & queries & -> & ->).
  reflexivity.
Defined.

Lemma dry_run_untracked_all_untainted_witness :
  dryMode lone opening = true /\
  (forall node, node ∈ five_nodes -> node_name node ∉ taintTracker opening) /\
  range five_nodes (filterNode lone) ([], []) opening
  = (Some (five_nodes, []), opening, []).
Proof.
  assert (forall node, node ∈ five_nodes -> node_name node ∉ taintTracker opening) as Hfree
    by (intros node _; apply not_elem_of_nil).
  split; [reflexivity|]. split; [exact Hfree|].
  destruct (dry_run_untracked_all_untainted (K := cluster) lone opening five_nodes
              eq_refl Hfree) as [Hrun _].
  exact Hrun.
Defined.

Lemma sweep_of_aborts_changes_nothing_witness :
  (forall k state, nodeGroups blind !! k = Some state -> abort_cause blind state) /\
  exists t, RunOnce ["a"] 0 1 blind = (Some tt, blind, t) /\ mutations t = [].
Proof.
  assert (forall k state, nodeGroups blind !! k = Some state -> abort_cause blind state)
    as Habort.
  { intros k state Hk. unfold blind, controller in Hk. cbn [nodeGroups list_to_map foldr] in Hk.
    apply lookup_insert_Some in Hk as [[_ <-]|[_ Hk]].
    - apply (abort_pods_fail blind unlisted [] "pods unavailable"). reflexivity.
    - by rewrite lookup_empty in Hk. }
  split; [exact Habort|].
  exact (sweep_of_aborts_changes_nothing blind ["a"] 0 1 Habort).
Defined.

Lemma sweep_lines_and_calls_witness :
  iteration_order pair ["a"; "b"] /\
  length (List.filter is_start_line (snd (RunOnce ["a"; "b"] 0 1 pair))) = size (nodeGroups pair).
Proof.
  assert (iteration_order pair ["a"; "b"]) as Ho.
  { unfold iteration_order.
    change ((map_to_list (nodeGroups pair)).*1) with ["a"; "b"]. reflexivity. }
  split; [exact Ho|].
  exact (proj1 (sweep_lines_and_calls pair ["a"; "b"] 0 1 Ho)).
Defined.

Lemma control_loop_sweeps_witness :
  let signals := [Tick ["a"; "b"] 0 1; Tick ["b"; "a"] 2 3; Stop; Tick ["a"] 4 5] in
  0 < ScanInterval (Controller_Opts pair) /\
  exists c' t,
    RunForever true ["a"; "b"] 0 1 signals pair = (Some Returned, c', t) /\
    sweeps t = 3%nat.
Proof.
  intros signals.
  assert (0 < ScanInterval (Controller_Opts pair)) as Hinterval by reflexivity.
  split; [exact Hinterval|].
  destruct (control_loop_sweeps pair true ["a"; "b"] 0 1 signals Hinterval)
    as (c' & t & Hrun & Hsweeps & _).
  exists c', t. split; [exact Hrun|exact Hsweeps].
Defined.

Lemma nonpositive_interval_panics_witness :
  ScanInterval (Controller_Opts halted) <= 0 /\
  exists c' t,
    RunForever false [] 0 0 [Tick ["default"] 0 1; Stop] halted = (Some Panicked, c', t) /\
    sweeps t = 0%nat.
Proof.
  assert (ScanInterval (Controller_Opts halted) <= 0) as Hinterval by (simpl; lia).
  split; [exact Hinterval|].
  destruct (nonpositive_interval_panics halted false [] 0 0
              [Tick ["default"] 0 1; Stop] Hinterval)
    as (c' & t & Hrun & Hsweeps & _).
  exists c', t. split; [exact Hrun|exact Hsweeps].
Defined.

Lemma new_controller_is_ready_witness :
  (forall o, o ∈ NodeGroups doubled -> is_Some (Listers client !! Name o)) /\
  exists c,
    controller_of (NewController doubled (Some client)) = Some c /\
    Controller_Opts c = doubled.
Proof.
  assert (forall o, o ∈ NodeGroups doubled -> is_Some (Listers client !! Name o)) as Hl.
  { intros o Ho. unfold doubled in Ho. cbn [NodeGroups] in Ho.
    repeat (apply elem_of_cons in Ho as [->|Ho]; [by eexists|]).
    by apply elem_of_nil in Ho. }
  split; [exact Hl|].
  destruct (new_controller_is_ready doubled client Hl) as (c & Hc & Hopts & _).
  exists c. split; [exact Hc|exact Hopts].
Defined.

(** The construction on the doubled options, run: two groups for three
    options, and under the doubled name the options configured last. *)
Example doubled_name_last_wins :
  match NewController doubled (Some client) with
  | Built _ nodeGroups =>
      size nodeGroups = 2%nat /\
      fresh_Opts <$> nodeGroups !! "default" = Some (options true 10 40 70)
  | Fatal _ => False
  end.
Proof. vm_compute. split; reflexivity. Qed.

(** The control loop on the pair, run: an immediate sweep, two ticks, a
    stop; the tick after the stop starts nothing. *)
Example control_loop_run :
  let signals := [Tick ["a"; "b"] 0 1; Tick ["b"; "a"] 2 3; Stop; Tick ["a"] 4 5] in
  let t := snd (RunForever true ["a"; "b"] 0 1 signals pair) in
  fst (fst (RunForever true ["a"; "b"] 0 1 signals pair)) = Some Returned /\
  sweeps t = 3%nat /\
  length (List.filter is_start_line t) = 6%nat /\
  last t = Some stop_line.
Proof. vm_compute. repeat split; reflexivity. Qed.

End FurtherScenarios.
